(** * onnx-web: the device worker pool ([api/onnx_web/worker/pool.py])

    A shallow embedding of [DevicePoolExecutor]: the pool's dictionaries are
    finite maps, its [Queue] and [Value] objects live in a store addressed by
    references (so that the sharing between [self.pending], the worker
    contexts and the worker processes is kept), and every method is a
    computation in a state-and-exception monad in which, as in Python, the
    mutations made before an exception is raised persist. *)

From Stdlib Require Import ZArith Sorting.Sorted Sorting.Permutation.
From stdpp Require Import gmap strings list fin_maps.

Local Open Scope Z_scope.
Local Open Scope nat_scope.

(** ** Exceptions and results *)

Inductive Exn : Type :=
  | KeyError
  | IndexError
  | ValueError
  | AttributeError.

Inductive Res (A : Type) : Type :=
  | Ok (a : A)
  | Raise (e : Exn).
Arguments Ok {A} a.
Arguments Raise {A} e.

(** ** Python's stable [sorted] / [list.sort]

    [before y x] says that [y] sorts strictly before [x]; an element is
    inserted in front of the first element that does not sort strictly
    before it, so equal elements keep their original order. *)

Section StableSort.
Context {A : Type} (before : A → A → bool).

Fixpoint insert_sorted (x : A) (l : list A) : list A :=
  match l with
  | [] => [x]
  | y :: l' => if before y x then y :: insert_sorted x l' else x :: y :: l'
  end.

Fixpoint sorted (l : list A) : list A :=
  match l with
  | [] => []
  | x :: l' => insert_sorted x (sorted l')
  end.

(** [x] may stand before [y] in a sorted list. *)
Definition in_order (x y : A) : Prop := before y x = false.
End StableSort.

(** ** [collections.Counter]

    A [Counter] is a dict from elements to counts; its items are kept in
    insertion order, which is what [most_common] breaks ties with. *)

Module Counter.

Definition t : Type := list (nat * nat).

(** [mapping[elem] = mapping.get(elem, 0) + 1] *)
Fixpoint incr (elem : nat) (c : t) : t :=
  match c with
  | [] => [(elem, 1)]
  | (k, v) :: c' =>
      if decide (k = elem) then (k, S v) :: c' else (k, v) :: incr elem c'
  end.

(** [Counter.update(iterable)] *)
Definition update (c : t) (iterable : list nat) : t :=
  fold_left (λ c elem, incr elem c) iterable c.

(** [Counter(iterable)] *)
Definition make (iterable : list nat) : t := update [] iterable.

(** [c[elem]], zero for a missing element. *)
Fixpoint get (elem : nat) (c : t) : nat :=
  match c with
  | [] => 0
  | (k, v) :: c' => if decide (k = elem) then v else get elem c'
  end.

(** [Counter.most_common()]:
    [sorted(self.items(), key=itemgetter(1), reverse=True)]. *)
Definition most_common (c : t) : list (nat * nat) :=
  sorted (λ y x, snd x <? snd y) c.

End Counter.

(** [list.sort()] on a list of ints. *)
Definition sort_ints (l : list nat) : list nat := sorted (λ y x, y <? x) l.

(** The tail of [get_next_device], from the [Counter] on: [n] is
    [len(self.devices)], [sizes] the list of [qsize()] of the devices'
    queues. *)
Definition lowest_device (n : nat) (sizes : list nat) : Res nat :=
  let jobs := Counter.make (seq 0 n) in
  let jobs := Counter.update jobs sizes in
  let queued := Counter.most_common jobs in
  match last queued with
  | None => Raise IndexError
  | Some (_, lowest_count) =>
      let lowest_devices :=
        map fst (List.filter (λ d, snd d =? lowest_count) queued) in
      let lowest_devices := sort_ints lowest_devices in
      match lowest_devices with
      | [] => Raise IndexError
      | i :: _ => Ok i
      end
  end.

(** The counter that [get_next_device] builds, and what it returns from
    it: a key of least count, and the least such key. *)
Definition device_counter (n : nat) (sizes : list nat) : Counter.t :=
  Counter.update (Counter.make (seq 0 n)) sizes.

Definition is_lowest (jobs : Counter.t) (r : nat) : Prop :=
  ∃ m, (r, m) ∈ jobs ∧ ∀ k v, (k, v) ∈ jobs → m ≤ v ∧ (v = m → r ≤ k).

(** How often [k] occurs in a list of ints. *)
Definition occurrences (k : nat) (l : list nat) : nat := count_occ Nat.eq_dec l k.

(** ** The pool's data *)

(** [params.DeviceParams] *)
Record DeviceParams : Type := {
  device : string;
  provider : string;
  options : option (list (string * string));
}.

(** References into the object store. *)
Abbreviation loc := nat.

(** A job callable with its arguments; the pool never looks inside. *)
Inductive Callable : Type := callable (code : nat).

(** The tuple [(key, fn, args, kwargs)] put on a pending queue. *)
Record Job : Type := {
  job_key : string;
  job_fn : Callable;
}.

(** The [WorkerContext] built by [create_device_worker]. The [progress],
    [finished] and [logs] arguments are the pool's three channels, the same
    in every context, and are left out. *)
Record WorkerContext : Type := {
  wc_name : string;
  wc_device : DeviceParams;
  wc_cancel : loc;    (* the shared [Value("B", False)] *)
  wc_pending : loc;   (* the device's [Queue] *)
}.

(** [Process(target=worker_main, args=(context, self.server))] *)
Record Process : Type := {
  pid : nat;
  proc_context : WorkerContext;
}.

(** [DevicePoolExecutor]: its attributes, then the store of the objects
    they refer to. A queue that is not in [queues] is empty, a flag that is
    not in [flags] is clear. *)
Record Pool : Type := {
  devices : list DeviceParams;
  max_jobs_per_worker : Z;
  context : gmap string WorkerContext;
  pending : gmap string loc;
  workers : gmap string (option Process);
  active_jobs : gmap string (string * Z);
  cancelled_jobs : list string;
  finished_jobs : list (string * Z * bool);
  total_jobs : Z;
  queues : gmap loc (list Job);
  flags : gmap loc bool;
  alive : gset nat;
  next_loc : loc;
  next_pid : nat;
}.

Definition set_context (f : gmap string WorkerContext → gmap string WorkerContext) (s : Pool) : Pool :=
  {| devices := devices s; max_jobs_per_worker := max_jobs_per_worker s;
     context := f (context s); pending := pending s; workers := workers s;
     active_jobs := active_jobs s; cancelled_jobs := cancelled_jobs s;
     finished_jobs := finished_jobs s; total_jobs := total_jobs s;
     queues := queues s; flags := flags s; alive := alive s;
     next_loc := next_loc s; next_pid := next_pid s |}.

Definition set_pending (f : gmap string loc → gmap string loc) (s : Pool) : Pool :=
  {| devices := devices s; max_jobs_per_worker := max_jobs_per_worker s;
     context := context s; pending := f (pending s); workers := workers s;
     active_jobs := active_jobs s; cancelled_jobs := cancelled_jobs s;
     finished_jobs := finished_jobs s; total_jobs := total_jobs s;
     queues := queues s; flags := flags s; alive := alive s;
     next_loc := next_loc s; next_pid := next_pid s |}.

Definition set_workers (f : gmap string (option Process) → gmap string (option Process)) (s : Pool) : Pool :=
  {| devices := devices s; max_jobs_per_worker := max_jobs_per_worker s;
     context := context s; pending := pending s; workers := f (workers s);
     active_jobs := active_jobs s; cancelled_jobs := cancelled_jobs s;
     finished_jobs := finished_jobs s; total_jobs := total_jobs s;
     queues := queues s; flags := flags s; alive := alive s;
     next_loc := next_loc s; next_pid := next_pid s |}.

Definition set_active_jobs (f : gmap string (string * Z) → gmap string (string * Z)) (s : Pool) : Pool :=
  {| devices := devices s; max_jobs_per_worker := max_jobs_per_worker s;
     context := context s; pending := pending s; workers := workers s;
     active_jobs := f (active_jobs s); cancelled_jobs := cancelled_jobs s;
     finished_jobs := finished_jobs s; total_jobs := total_jobs s;
     queues := queues s; flags := flags s; alive := alive s;
     next_loc := next_loc s; next_pid := next_pid s |}.

Definition set_cancelled_jobs (f : list string → list string) (s : Pool) : Pool :=
  {| devices := devices s; max_jobs_per_worker := max_jobs_per_worker s;
     context := context s; pending := pending s; workers := workers s;
     active_jobs := active_jobs s; cancelled_jobs := f (cancelled_jobs s);
     finished_jobs := finished_jobs s; total_jobs := total_jobs s;
     queues := queues s; flags := flags s; alive := alive s;
     next_loc := next_loc s; next_pid := next_pid s |}.

Definition set_finished_jobs (f : list (string * Z * bool) → list (string * Z * bool)) (s : Pool) : Pool :=
  {| devices := devices s; max_jobs_per_worker := max_jobs_per_worker s;
     context := context s; pending := pending s; workers := workers s;
     active_jobs := active_jobs s; cancelled_jobs := cancelled_jobs s;
     finished_jobs := f (finished_jobs s); total_jobs := total_jobs s;
     queues := queues s; flags := flags s; alive := alive s;
     next_loc := next_loc s; next_pid := next_pid s |}.

Definition set_total_jobs (f : Z → Z) (s : Pool) : Pool :=
  {| devices := devices s; max_jobs_per_worker := max_jobs_per_worker s;
     context := context s; pending := pending s; workers := workers s;
     active_jobs := active_jobs s; cancelled_jobs := cancelled_jobs s;
     finished_jobs := finished_jobs s; total_jobs := f (total_jobs s);
     queues := queues s; flags := flags s; alive := alive s;
     next_loc := next_loc s; next_pid := next_pid s |}.

Definition set_queues (f : gmap loc (list Job) → gmap loc (list Job)) (s : Pool) : Pool :=
  {| devices := devices s; max_jobs_per_worker := max_jobs_per_worker s;
     context := context s; pending := pending s; workers := workers s;
     active_jobs := active_jobs s; cancelled_jobs := cancelled_jobs s;
     finished_jobs := finished_jobs s; total_jobs := total_jobs s;
     queues := f (queues s); flags := flags s; alive := alive s;
     next_loc := next_loc s; next_pid := next_pid s |}.

Definition set_flags (f : gmap loc bool → gmap loc bool) (s : Pool) : Pool :=
  {| devices := devices s; max_jobs_per_worker := max_jobs_per_worker s;
     context := context s; pending := pending s; workers := workers s;
     active_jobs := active_jobs s; cancelled_jobs := cancelled_jobs s;
     finished_jobs := finished_jobs s; total_jobs := total_jobs s;
     queues := queues s; flags := f (flags s); alive := alive s;
     next_loc := next_loc s; next_pid := next_pid s |}.

Definition set_alive (f : gset nat → gset nat) (s : Pool) : Pool :=
  {| devices := devices s; max_jobs_per_worker := max_jobs_per_worker s;
     context := context s; pending := pending s; workers := workers s;
     active_jobs := active_jobs s; cancelled_jobs := cancelled_jobs s;
     finished_jobs := finished_jobs s; total_jobs := total_jobs s;
     queues := queues s; flags := flags s; alive := f (alive s);
     next_loc := next_loc s; next_pid := next_pid s |}.

Definition set_next_loc (f : loc → loc) (s : Pool) : Pool :=
  {| devices := devices s; max_jobs_per_worker := max_jobs_per_worker s;
     context := context s; pending := pending s; workers := workers s;
     active_jobs := active_jobs s; cancelled_jobs := cancelled_jobs s;
     finished_jobs := finished_jobs s; total_jobs := total_jobs s;
     queues := queues s; flags := flags s; alive := alive s;
     next_loc := f (next_loc s); next_pid := next_pid s |}.

Definition set_next_pid (f : nat → nat) (s : Pool) : Pool :=
  {| devices := devices s; max_jobs_per_worker := max_jobs_per_worker s;
     context := context s; pending := pending s; workers := workers s;
     active_jobs := active_jobs s; cancelled_jobs := cancelled_jobs s;
     finished_jobs := finished_jobs s; total_jobs := total_jobs s;
     queues := queues s; flags := flags s; alive := alive s;
     next_loc := next_loc s; next_pid := f (next_pid s) |}.

(** Reading the store. *)
Definition queue_items (s : Pool) (q : loc) : list Job := default [] (queues s !! q).
Definition qsize (s : Pool) (q : loc) : nat := length (queue_items s q).
Definition flag_value (s : Pool) (v : loc) : bool := default false (flags s !! v).
Definition is_alive (s : Pool) (p : Process) : bool := bool_decide (pid p ∈ alive s).

(** ** The monad of pool methods

    A method takes the pool to a result and the pool it leaves behind; the
    pool left behind by an exception holds every mutation made before it. *)

Definition M (A : Type) : Type := Pool → Res A * Pool.

Definition ret {A} (a : A) : M A := λ s, (Ok a, s).
Definition raise {A} (e : Exn) : M A := λ s, (Raise e, s).
Definition bind {A B} (m : M A) (k : A → M B) : M B :=
  λ s, match m s with
       | (Ok a, s') => k a s'
       | (Raise e, s') => (Raise e, s')
       end.
Definition gets {A} (f : Pool → A) : M A := λ s, (Ok (f s), s).
Definition modify (f : Pool → Pool) : M unit := λ s, (Ok tt, f s).
Definition lift {A} (r : Res A) : M A := λ s, (r, s).

Notation "'let!' x ':=' m 'in' k" := (bind m (λ x, k))
  (at level 10, x pattern, m at level 100, k at level 200).
Notation "m ';;' k" := (bind m (λ _, k))
  (at level 100, k at level 200, right associativity).

(** [d[key]] on a dict: [KeyError] when the key is missing. *)
Definition getitem {V} (field : Pool → gmap string V) (key : string) : M V :=
  λ s, match field s !! key with
       | Some v => (Ok v, s)
       | None => (Raise KeyError, s)
       end.

(** [l[i]] on a list: [IndexError] when out of range. *)
Definition list_getitem {V} (field : Pool → list V) (i : nat) : M V :=
  λ s, match field s !! i with
       | Some v => (Ok v, s)
       | None => (Raise IndexError, s)
       end.

(** [for x in l: body(x)] *)
Fixpoint for_each {A} (l : list A) (body : A → M unit) : M unit :=
  match l with
  | [] => ret tt
  | x :: l' => body x ;; for_each l' body
  end.

(** [[body(x) for x in l]] *)
Fixpoint comprehension {A B} (l : list A) (body : A → M B) : M (list B) :=
  match l with
  | [] => ret []
  | x :: l' => let! y := body x in let! ys := comprehension l' body in ret (y :: ys)
  end.

(** ** [WorkerContext.set_cancel] *)

(** Modelled from the spec: [worker/context.py], which defines
    [WorkerContext] and its [set_cancel] method, is missing from the sources;
    the spec says that it sets the device's cancellation flag, the shared
    [Value] the context was built with. *)
Definition set_cancel (ctx : WorkerContext) : M unit :=
  modify (set_flags <[wc_cancel ctx := true]>).

(** ** The methods of [DevicePoolExecutor] *)

(** [Queue()] and [Value("B", False)]: a fresh reference each. *)
Definition new_queue : M loc :=
  λ s, let q := next_loc s in
       (Ok q, set_next_loc S (set_queues <[q := []]> s)).

Definition new_value (b : bool) : M loc :=
  λ s, let v := next_loc s in
       (Ok v, set_next_loc S (set_flags <[v := b]> s)).

(** [Process(...)] followed by [start()]. *)
Definition start_process (ctx : WorkerContext) : M Process :=
  λ s, let p := {| pid := next_pid s; proc_context := ctx |} in
       (Ok p, set_next_pid S (set_alive (λ a, {[pid p]} ∪ a) s)).

Definition create_device_worker (dev : DeviceParams) : M unit :=
  let name := device dev in
  (* reuse the queue if possible, to keep queued jobs *)
  let! known := gets (λ s, pending s !! name) in
  let! pending_q :=
    match known with
    | Some q => ret q
    | None => let! q := new_queue in
              modify (set_pending <[name := q]>) ;;
              ret q
    end in
  let! cancel := new_value false in
  let ctx := {| wc_name := name; wc_device := dev;
                wc_cancel := cancel; wc_pending := pending_q |} in
  modify (set_context <[name := ctx]>) ;;
  let! proc := start_process ctx in
  modify (set_workers <[name := Some proc]>).

(** [__init__]; the three listener threads it starts are the step functions
    below, run on each message they receive. *)
Definition init (devs : list DeviceParams) (max_jobs : Z) : Pool :=
  let s0 := {| devices := devs; max_jobs_per_worker := max_jobs;
               context := ∅; pending := ∅; workers := ∅;
               active_jobs := ∅; cancelled_jobs := []; finished_jobs := [];
               total_jobs := 0%Z;
               queues := ∅; flags := ∅; alive := ∅;
               next_loc := 0; next_pid := 0 |} in
  snd (for_each devs create_device_worker s0).

Definition get_next_device (needs_device : option DeviceParams) : M nat :=
  λ s,
  (* respect overrides if possible *)
  let pinned :=
    match needs_device with
    | Some nd => fst <$> list_find (λ d, device d = device nd) (devices s)
    | None => None
    end in
  match pinned with
  | Some i => (Ok i, s)
  | None =>
      (let! sizes :=
         comprehension (devices s)
           (λ d, let! q := getitem pending (device d) in gets (λ s, qsize s q)) in
       lift (lowest_device (length (devices s)) sizes)) s
  end.

Definition cancel (key : string) : M bool :=
  modify (set_cancelled_jobs (λ l, l ++ [key])) ;;
  let! job := gets (λ s, active_jobs s !! key) in
  match job with
  | None => ret true
  | Some (dev, _progress) =>
      let! ctx := getitem context dev in
      set_cancel ctx ;;
      ret true
  end.

(** [done] neither writes nor raises. *)
Definition done (s : Pool) (key : string) : option bool * Z :=
  match List.find (λ '(k, p, c), bool_decide (k = key)) (finished_jobs s) with
  | Some (k, p, c) => (Some true, p)
  | None =>
      match active_jobs s !! key with
      | None => (None, 0%Z)
      | Some (_device, progress) => (Some false, progress)
      end
  end.

(** [proc.terminate()] *)
Definition terminate (p : Process) : M unit :=
  modify (set_alive (λ a, a ∖ {[pid p]})).

Definition recycle : M unit :=
  let! items := gets (λ s, map_to_list (workers s)) in
  for_each items (λ '(name, proc),
    match proc with
    | None => raise AttributeError          (* [None.is_alive()] *)
    | Some p =>
        let! running := gets (λ s, is_alive s p) in
        (* [proc.join(self.join_timeout)] waits, then [proc.terminate()] *)
        (if running then terminate p else ret tt) ;;
        modify (set_workers <[name := None]>)
    end) ;;
  (* starting new workers *)
  let! devs := gets devices in
  for_each devs create_device_worker.

(** [Queue.put(job, block=False)] on an unbounded queue. *)
Definition put (q : loc) (job : Job) : M unit :=
  modify (λ s, set_queues <[q := queue_items s q ++ [job]]> s).

Definition submit (key : string) (fn : Callable)
    (needs_device : option DeviceParams) : M unit :=
  modify (set_total_jobs (λ n, n + 1)%Z) ;;
  let! over := gets (λ s, (max_jobs_per_worker s <? total_jobs s)%Z) in
  (if over then recycle ;; modify (set_total_jobs (λ _, 0%Z)) else ret tt) ;;
  let! device_idx := get_next_device needs_device in
  let! dev := list_getitem devices device_idx in
  let! q := getitem pending (device dev) in
  put q {| job_key := key; job_fn := fn |}.

(** [status]: each item of [self.active_jobs.items()] is a pair
    [(name, (device, progress))], and the first comprehension unpacks it into
    the three names [name, _device, progress]: two values for three names,
    which raises [ValueError] on the first item, if there is one. *)
Definition status : M (list (string * Z * bool * bool)) :=
  let! items := gets (λ s, map_to_list (active_jobs s)) in
  let! history :=
    comprehension items
      (λ _ : string * (string * Z),
         (raise ValueError : M (string * Z * bool * bool))) in
  let! finished := gets finished_jobs in
  ret (history ++ map (λ '(name, progress, c), (name, progress, true, c)) finished).

(** ** The listener threads

    One turn of each loop, on the message that [get] returned. *)

Inductive Turn : Type :=
  | Handled                 (* the [try] body ran to its end *)
  | Logged (e : Exn)        (* [except Exception]: logged, loop goes on *)
  | Stopped.                (* [except ValueError: break] *)

Definition try_turn (body : M unit) : Pool → Turn * Pool :=
  λ s, match body s with
       | (Ok _, s') => (Handled, s')
       | (Raise ValueError, s') => (Stopped, s')
       | (Raise e, s') => (Logged e, s')
       end.

Definition progress_worker (msg : string * string * Z) : Pool → Turn * Pool :=
  let '(job, dev, value) := msg in
  try_turn (
    modify (set_active_jobs <[job := (dev, value)]>) ;;
    let! requested := gets (λ s, bool_decide (job ∈ cancelled_jobs s)) in
    if requested
    then let! ctx := getitem context dev in set_cancel ctx
    else ret tt).

Definition finished_worker (msg : string * string) : Pool → Turn * Pool :=
  let '(job, dev) := msg in
  try_turn (
    let! ctx := getitem context dev in
    let! (_device, progress) := getitem active_jobs job in
    let! c := gets (λ s, flag_value s (wc_cancel ctx)) in
    modify (set_finished_jobs (λ l, l ++ [(job, progress, c)])) ;;
    modify (set_active_jobs (delete job))).

(** ** Vocabulary of the statements *)

(** The number of jobs waiting on a device's queue. *)
Definition queue_depth (s : Pool) (d : DeviceParams) : nat :=
  from_option (qsize s) 0 (pending s !! device d).

(** What [__init__] establishes and [submit], [recycle], [cancel] and the
    listeners keep: each configured device has its pending queue, and each
    entry of [self.workers] is a process that was started by the pool for one
    of the configured devices. *)
Definition pool_ok (s : Pool) : Prop :=
  Forall (λ d, is_Some (pending s !! device d)) (devices s)
  ∧ map_Forall (λ name w,
      (∃ p, w = Some p ∧ pid p < next_pid s) ∧ name ∈ device <$> devices s)
      (workers s).

(** A run of [submit] calls, one per [(key, fn, needs_device)]; a call that
    raises leaves its mutations behind and the run goes on. *)
Definition submit_all (jobs : list (string * Callable * option DeviceParams))
    (s : Pool) : Pool :=
  fold_left (λ s '(key, fn, nd), snd (submit key fn nd s)) jobs s.

(** Sample devices and pools for the examples. *)
Definition gpu0 : DeviceParams :=
  {| device := "gpu0"; provider := "CUDAExecutionProvider"; options := None |}.
Definition gpu1 : DeviceParams :=
  {| device := "gpu1"; provider := "CUDAExecutionProvider"; options := None |}.
Definition two_gpus : Pool := init [gpu0; gpu1] 10.

(** Three jobs submitted to the two-device pool without a device pin. *)
Definition three_submitted : Pool :=
  submit_all [("a", callable 0, None); ("b", callable 1, None);
              ("c", callable 2, None)] two_gpus.

(** One job submitted to the two-device pool, no message received yet. *)
Definition one_submitted : Pool :=
  snd (submit "job-1" (callable 0) None two_gpus).

(** The tuple [status] reports for a finished record. *)
Definition finished_entry (r : string * Z * bool) : string * Z * bool * bool :=
  let '(name, progress, c) := r in (name, progress, true, c).

(** Two jobs pinned to [gpu0], both with a progress update received. *)
Definition two_active : Pool :=
  let s := submit_all [("a", callable 0, Some gpu0); ("b", callable 1, Some gpu0)]
             two_gpus in
  let s := snd (progress_worker ("a", "gpu0", 1%Z) s) in
  snd (progress_worker ("b", "gpu0", 2%Z) s).

(** A pool that differs from [s] in its processes only: the workers, their
    contexts and cancel flags, and the bookkeeping of the store. *)
Definition with_processes (W : gmap string (option Process))
    (C : gmap string WorkerContext) (A : gset nat) (F : gmap loc bool)
    (nl : loc) (np : nat) (s : Pool) : Pool :=
  {| devices := devices s; max_jobs_per_worker := max_jobs_per_worker s;
     context := C; pending := pending s; workers := W;
     active_jobs := active_jobs s; cancelled_jobs := cancelled_jobs s;
     finished_jobs := finished_jobs s; total_jobs := total_jobs s;
     queues := queues s; flags := F; alive := A;
     next_loc := nl; next_pid := np |}.

(** A pool that recycles after two jobs, and two jobs for it. *)
Definition small_pool : Pool := init [gpu0; gpu1] 2.
Definition two_jobs : list (string * Callable * option DeviceParams) :=
  [("a", callable 0, None); ("b", callable 1, None)].

(** ** The rest of [DevicePoolExecutor] *)

Definition get_job_context (key : string) : M WorkerContext :=
  let! (dev, _progress) := getitem active_jobs key in
  getitem context dev.

(** What [join] closes: the three channels of the pool and the pending
    queues. No method of the pool reads these marks: once [join] has cleared
    [self.pending], the closed queues are out of the pool's reach. *)
Record Channels : Type := {
  logs_closed : bool;
  finished_closed : bool;
  progress_closed : bool;
  closed_queues : gset loc;
}.

Definition join (ch : Channels) : M Channels :=
  let! items := gets (λ s, map_to_list (workers s)) in
  for_each items (λ '(name, proc),
    match proc with
    | None => raise AttributeError          (* [None.is_alive()] *)
    | Some p =>
        let! running := gets (λ s, is_alive s p) in
        (* [worker.join(self.join_timeout)] waits, then [worker.terminate()] *)
        if running then terminate p else ret tt
    end) ;;
  (* the listener threads are joined, then the queues closed *)
  let! qs := gets (λ s, map_to_list (pending s)) in
  modify (set_pending (λ _, ∅)) ;;
  ret {| logs_closed := true; finished_closed := true; progress_closed := true;
         closed_queues := closed_queues ch ∪ list_to_set qs.*2 |}.

(** ** Histories *)

(** The calls and messages a running pool sees; [join] ends a history and is
    not among them. *)
Inductive Op : Type :=
  | Submit (key : string) (fn : Callable) (needs_device : option DeviceParams)
  | Cancel (key : string)
  | Recycle
  | ProgressMsg (msg : string * string * Z)
  | FinishedMsg (msg : string * string).

Definition run_op (op : Op) (s : Pool) : Pool :=
  match op with
  | Submit key fn needs_device => snd (submit key fn needs_device s)
  | Cancel key => snd (cancel key s)
  | Recycle => snd (recycle s)
  | ProgressMsg msg => snd (progress_worker msg s)
  | FinishedMsg msg => snd (finished_worker msg s)
  end.

Definition run_ops (ops : list Op) (s : Pool) : Pool :=
  fold_left (λ s op, run_op op s) ops s.

(** The queue lengths that [get_next_device] reads, in device order. *)
Definition queue_depths (s : Pool) : list nat :=
  map (queue_depth s) (devices s).

(** What a history may change of the queues and records: nothing is taken
    off a queue, a finished record or a cancellation request stays. *)
Definition grows_from (s s' : Pool) : Prop :=
  devices s' = devices s
  ∧ max_jobs_per_worker s' = max_jobs_per_worker s
  ∧ pending s' = pending s
  ∧ (∀ q, queue_items s q `prefix_of` queue_items s' q)
  ∧ finished_jobs s `prefix_of` finished_jobs s'
  ∧ cancelled_jobs s `prefix_of` cancelled_jobs s'.

(** A sample history on the two-device pool. *)
Definition sample_history : list Op :=
  [Submit "a" (callable 0) None; Cancel "a"; ProgressMsg ("a", "gpu1", 1%Z);
   Submit "b" (callable 1) (Some gpu0); Recycle; FinishedMsg ("a", "gpu1")].

(** The least index below [n] that is not among [sizes], and [0] when
    every index is. *)
Definition least_unused (n : nat) (sizes : list nat) : nat :=
  from_option snd 0 (list_find (λ k, k ∉ sizes) (seq 0 n)).

(** A progress message that names a device the pool does not have. *)
Definition stray_progress : Pool :=
  snd (progress_worker ("job-1", "tpu9", 1%Z) one_submitted).

(** The job tuple that [submit] puts on a queue. *)
Definition job_of (key : string) (fn : Callable) : Job :=
  {| job_key := key; job_fn := fn |}.

(** The last lines of [submit], from the choice of the device on. *)
Definition assign_job (key : string) (fn : Callable)
    (needs_device : option DeviceParams) : M unit :=
  let! device_idx := get_next_device needs_device in
  let! dev := list_getitem devices device_idx in
  let! q := getitem pending (device dev) in
  put q {| job_key := key; job_fn := fn |}.

(** The job counter is within its bounds. *)
Definition counter_ok (s : Pool) : Prop :=
  (0 ≤ total_jobs s ≤ max_jobs_per_worker s)%Z.

(** The pool after one job was reported and finished on [gpu1]. *)
Definition one_finished : Pool :=
  snd (finished_worker ("job-1", "gpu1")
         (snd (progress_worker ("job-1", "gpu1", 5%Z) one_submitted))).

(** The pool as [__init__] has it before it starts the device workers. *)
Definition empty_pool (devs : list DeviceParams) (max_jobs : Z) : Pool :=
  {| devices := devs; max_jobs_per_worker := max_jobs;
     context := ∅; pending := ∅; workers := ∅;
     active_jobs := ∅; cancelled_jobs := []; finished_jobs := [];
     total_jobs := 0%Z;
     queues := ∅; flags := ∅; alive := ∅;
     next_loc := 0; next_pid := 0 |}.

(** The process ids of the entries of [self.workers]. *)
Definition worker_pids (items : list (string * option Process)) : gset nat :=
  list_to_set (omap (λ nw : string * option Process, pid <$> nw.2) items).

(** No channel closed yet. *)
Definition open_channels : Channels :=
  {| logs_closed := false; finished_closed := false; progress_closed := false;
     closed_queues := ∅ |}.

(** A job active on [gpu0] and cancelled, so that the flag of [gpu0] is set. *)
Definition cancelled_active : Pool := snd (cancel "a" two_active).

(** A cancellation request for a job that is still queued. *)
Definition cancel_requested : Pool := snd (cancel "job-1" one_submitted).

(** Two jobs submitted: ["job-1"] has reported progress and finished on
    [gpu1], ["job-2"] has reported progress on [gpu0] and is still running. *)
Definition finished_and_active : Pool :=
  let s := submit_all [("job-1", callable 0, None); ("job-2", callable 1, None)]
             two_gpus in
  let s := snd (progress_worker ("job-1", "gpu1", 5%Z) s) in
  let s := snd (finished_worker ("job-1", "gpu1") s) in
  snd (progress_worker ("job-2", "gpu0", 3%Z) s).

(** * Properties *)

(** Reading a field of an updated pool. *)
Ltac pool_simpl :=
  cbn [devices max_jobs_per_worker context pending workers active_jobs
       cancelled_jobs finished_jobs total_jobs queues flags alive next_loc
       next_pid set_context set_pending set_workers set_active_jobs
       set_cancelled_jobs set_finished_jobs set_total_jobs set_queues
       set_flags set_alive set_next_loc set_next_pid fst snd] in *.

(** ** The stable sort *)

Section StableSortFacts.
Context {A : Type} (before : A → A → bool).

Lemma insert_sorted_perm (x : A) (l : list A) :
  insert_sorted before x l ≡ₚ x :: l.
Proof.
  induction l as [|y l IH]; simpl; [done|].
  destruct (before y x); [|done].
  rewrite IH. apply Permutation_swap.
Qed.

Lemma sorted_perm (l : list A) : sorted before l ≡ₚ l.
Proof.
  induction l as [|x l IH]; simpl; [done|].
  by rewrite insert_sorted_perm, IH.
Qed.

Hypothesis before_asym : ∀ x y, before x y = true → before y x = false.
Hypothesis in_order_trans : ∀ x y z, in_order before x y → in_order before y z → in_order before x z.

Lemma insert_sorted_sorted (x : A) (l : list A) :
  StronglySorted (in_order before) l → StronglySorted (in_order before) (insert_sorted before x l).
Proof.
  induction 1 as [|y l Hl IH Hy]; simpl.
  - repeat constructor.
  - destruct (before y x) eqn:Hyx.
    + constructor; [done|].
      rewrite insert_sorted_perm. constructor; [|done].
      by apply before_asym.
    + constructor; [by constructor|].
      constructor; [done|].
      eapply Forall_impl; [exact Hy|].
      intros z Hz. by apply (in_order_trans x y z).
Qed.

Lemma sorted_sorted (l : list A) : StronglySorted (in_order before) (sorted before l).
Proof.
  induction l as [|x l IH]; simpl; [constructor|].
  by apply insert_sorted_sorted.
Qed.

Lemma strongly_sorted_last (l : list A) (z : A) :
  StronglySorted (in_order before) l → last l = Some z →
  ∀ x, x ∈ l → x = z ∨ in_order before x z.
Proof.
  induction 1 as [|y l Hl IH Hy]; intros Hlast x Hx; [done|].
  destruct l as [|y' l'].
  - simpl in Hlast. apply list_elem_of_singleton in Hx. left. congruence.
  - assert (last (y' :: l') = Some z) as Hlast' by done.
    apply elem_of_cons in Hx as [->|Hx]; [|by apply IH].
    right. rewrite Forall_forall in Hy. apply Hy.
    by apply last_Some_elem_of.
Qed.
End StableSortFacts.

(** ** The counter *)

Lemma counter_get_incr (k e : nat) (c : Counter.t) :
  Counter.get k (Counter.incr e c)
  = Counter.get k c + (if decide (e = k) then 1 else 0).
Proof.
  induction c as [|[k' v] c IH]; simpl.
  - repeat case_decide; lia.
  - repeat (case_decide; simpl; subst); try lia; done.
Qed.

Lemma counter_get_update (k : nat) (l : list nat) (c : Counter.t) :
  Counter.get k (Counter.update c l) = Counter.get k c + occurrences k l.
Proof.
  unfold Counter.update, occurrences. revert c.
  induction l as [|e l IH]; intros c; simpl; [lia|].
  rewrite IH, counter_get_incr.
  destruct (Nat.eq_dec e k); case_decide; try done; lia.
Qed.

Lemma occurrences_seq (k n : nat) :
  occurrences k (seq 0 n) = if decide (k < n) then 1 else 0.
Proof.
  unfold occurrences.
  destruct (decide (k < n)) as [Hk|Hk].
  - apply NoDup_count_occ'; [apply seq_NoDup|]. apply in_seq. lia.
  - apply count_occ_not_In. rewrite in_seq. lia.
Qed.

Lemma occurrences_pos (k : nat) (l : list nat) : 0 < occurrences k l ↔ k ∈ l.
Proof. unfold occurrences. rewrite list_elem_of_In, (count_occ_In Nat.eq_dec). lia. Qed.

Lemma device_counter_get (n : nat) (sizes : list nat) (k : nat) :
  Counter.get k (device_counter n sizes)
  = (if decide (k < n) then 1 else 0) + occurrences k sizes.
Proof.
  unfold device_counter, Counter.make.
  by rewrite !counter_get_update, occurrences_seq.
Qed.

(** A counter's keys are distinct and its counts positive. *)
Lemma counter_incr_keys (e : nat) (c : Counter.t) :
  (e ∈ c.*1 ∧ (Counter.incr e c).*1 = c.*1)
  ∨ ((e ∉ c.*1) ∧ (Counter.incr e c).*1 = c.*1 ++ [e]).
Proof.
  induction c as [|[k v] c IH].
  - right. split; [apply not_elem_of_nil|done].
  - cbn [Counter.incr]. destruct (decide (k = e)) as [->|Hne].
    + left. split; [apply list_elem_of_here|done].
    + rewrite !fmap_cons. cbn [fst].
      destruct IH as [[Hin ->]|[Hin ->]]; [left|right].
      * split; [by apply list_elem_of_further|done].
      * split; [|done]. rewrite elem_of_cons. by intros [->|?].
Qed.

Lemma counter_incr_NoDup (e : nat) (c : Counter.t) :
  NoDup c.*1 → NoDup (Counter.incr e c).*1.
Proof.
  intros Hc. destruct (counter_incr_keys e c) as [[_ ->]|[Hin ->]]; [done|].
  apply NoDup_app. split_and!; [done| |apply NoDup_singleton].
  by intros x Hx ->%list_elem_of_singleton.
Qed.

Lemma counter_incr_pos (e : nat) (c : Counter.t) :
  Forall (λ kv, 0 < kv.2) c → Forall (λ kv, 0 < kv.2) (Counter.incr e c).
Proof.
  induction 1 as [|[k v] c Hv Hc IH]; simpl.
  - repeat constructor.
  - case_decide; constructor; simpl in *; try done; lia.
Qed.

Lemma counter_update_wf (l : list nat) (c : Counter.t) :
  NoDup c.*1 ∧ Forall (λ kv, 0 < kv.2) c →
  NoDup (Counter.update c l).*1 ∧ Forall (λ kv, 0 < kv.2) (Counter.update c l).
Proof.
  unfold Counter.update. revert c.
  induction l as [|e l IH]; intros c [Hk Hv]; simpl; [done|].
  apply IH. split; [by apply counter_incr_NoDup|by apply counter_incr_pos].
Qed.

Lemma device_counter_wf (n : nat) (sizes : list nat) :
  NoDup (device_counter n sizes).*1
  ∧ Forall (λ kv, 0 < kv.2) (device_counter n sizes).
Proof.
  unfold device_counter, Counter.make.
  do 2 apply counter_update_wf. split; constructor.
Qed.

Lemma counter_elem_of_get (k v : nat) (c : Counter.t) :
  NoDup c.*1 → (k, v) ∈ c → Counter.get k c = v.
Proof.
  induction c as [|[k' v'] c IH]; simpl; intros Hnd Hin.
  - by apply not_elem_of_nil in Hin.
  - apply NoDup_cons in Hnd as [Hk' Hnd].
    apply elem_of_cons in Hin as [[= -> ->]|Hin].
    + by rewrite decide_True by done.
    + rewrite decide_False; [by apply IH|].
      intros ->. apply Hk'. apply list_elem_of_fmap. by exists (k, v).
Qed.

Lemma counter_get_elem_of (k : nat) (c : Counter.t) :
  0 < Counter.get k c → (k, Counter.get k c) ∈ c.
Proof.
  induction c as [|[k' v'] c IH]; simpl; [lia|].
  case_decide as Hk; [subst; intros _; apply list_elem_of_here|].
  intros. apply list_elem_of_further. by apply IH.
Qed.

Lemma device_counter_items (n : nat) (sizes : list nat) (k v : nat) :
  (k, v) ∈ device_counter n sizes
  ↔ 0 < v ∧ v = (if decide (k < n) then 1 else 0) + occurrences k sizes.
Proof.
  destruct (device_counter_wf n sizes) as [Hnd Hpos].
  rewrite <- device_counter_get. split.
  - intros Hin. split.
    + rewrite Forall_forall in Hpos. by apply (Hpos (k, v)).
    + symmetry. by apply counter_elem_of_get.
  - intros [Hv ->]. by apply counter_get_elem_of.
Qed.

(** ** What [get_next_device] selects *)

Lemma most_common_perm (c : Counter.t) : Counter.most_common c ≡ₚ c.
Proof. apply sorted_perm. Qed.

Lemma most_common_sorted (c : Counter.t) :
  StronglySorted (in_order (λ y x : nat * nat, snd x <? snd y))
    (Counter.most_common c).
Proof.
  apply sorted_sorted.
  - intros x y. rewrite Nat.ltb_lt, Nat.ltb_ge. lia.
  - unfold in_order. intros x y z. rewrite !Nat.ltb_ge. lia.
Qed.

Lemma most_common_last (c : Counter.t) (k m : nat) :
  last (Counter.most_common c) = Some (k, m) →
  (k, m) ∈ c ∧ ∀ k' v, (k', v) ∈ c → m ≤ v.
Proof.
  intros Hlast. split.
  - rewrite <- (most_common_perm c). by apply last_Some_elem_of.
  - intros k' v Hin. rewrite <- (most_common_perm c) in Hin.
    destruct (strongly_sorted_last _ _ _ (most_common_sorted c) Hlast _ Hin)
      as [[= -> ->]|Hord]; [done|].
    unfold in_order in Hord. simpl in Hord. apply Nat.ltb_ge in Hord. lia.
Qed.

Lemma sort_ints_perm (l : list nat) : sort_ints l ≡ₚ l.
Proof. apply sorted_perm. Qed.

Lemma sort_ints_head (l l' : list nat) (i : nat) :
  sort_ints l = i :: l' → i ∈ l ∧ ∀ x, x ∈ l → i ≤ x.
Proof.
  intros Hsort.
  assert (StronglySorted (in_order (λ y x, y <? x)) (i :: l')) as Hs.
  { rewrite <- Hsort. apply sorted_sorted.
    - intros x y. rewrite Nat.ltb_lt, Nat.ltb_ge. lia.
    - unfold in_order. intros x y z. rewrite !Nat.ltb_ge. lia. }
  split.
  - rewrite <- (sort_ints_perm l), Hsort. apply list_elem_of_here.
  - intros x Hx. rewrite <- (sort_ints_perm l), Hsort in Hx.
    apply elem_of_cons in Hx as [->|Hx]; [done|].
    apply StronglySorted_inv in Hs as [_ Hall].
    rewrite Forall_forall in Hall. specialize (Hall x Hx).
    unfold in_order in Hall. apply Nat.ltb_ge in Hall. lia.
Qed.

Lemma lowest_device_spec (n : nat) (sizes : list nat) :
  match lowest_device n sizes with
  | Ok r => is_lowest (device_counter n sizes) r
  | Raise e => e = IndexError ∧ device_counter n sizes = []
  end.
Proof.
  unfold lowest_device. fold (device_counter n sizes).
  set (jobs := device_counter n sizes).
  destruct (last (Counter.most_common jobs)) as [[k0 m]|] eqn:Hlast.
  - apply most_common_last in Hlast as [Hk0 Hmin].
    set (cands := map fst (List.filter (λ d, snd d =? m) (Counter.most_common jobs))).
    assert (∀ k, k ∈ cands ↔ (k, m) ∈ jobs) as Hcands.
    { intros k. unfold cands. rewrite list_elem_of_In, in_map_iff. split.
      - intros [[k' v] [Hk [Hin Hv]%filter_In]]. simpl in *. subst k'.
        apply Nat.eqb_eq in Hv as ->.
        by rewrite <- (most_common_perm jobs), list_elem_of_In.
      - intros Hin. exists (k, m). split; [done|]. apply filter_In.
        split; [|by apply Nat.eqb_eq].
        by rewrite <- list_elem_of_In, most_common_perm. }
    destruct (sort_ints cands) as [|i rest] eqn:Hsort.
    + exfalso. pose proof (sort_ints_perm cands) as Hp. rewrite Hsort in Hp.
      apply Permutation_nil in Hp. apply Hcands in Hk0. rewrite Hp in Hk0.
      by apply not_elem_of_nil in Hk0.
    + apply sort_ints_head in Hsort as [Hi Hle].
      exists m. split; [by apply Hcands|].
      intros k v Hin. split; [by eapply Hmin|].
      intros ->. by apply Hle, Hcands.
  - split; [done|]. apply last_None in Hlast.
    apply Permutation_nil. by rewrite <- Hlast, most_common_perm.
Qed.

Lemma is_lowest_unique (jobs : Counter.t) (r r' : nat) :
  is_lowest jobs r → is_lowest jobs r' → r = r'.
Proof.
  intros (m & Hin & Hmin) (m' & Hin' & Hmin').
  destruct (Hmin _ _ Hin') as [Hle Hk]. destruct (Hmin' _ _ Hin) as [Hle' Hk'].
  assert (m = m') as -> by lia. specialize (Hk eq_refl). specialize (Hk' eq_refl). lia.
Qed.

Lemma lowest_device_intro (n : nat) (sizes : list nat) (r : nat) :
  is_lowest (device_counter n sizes) r → lowest_device n sizes = Ok r.
Proof.
  intros Hr. pose proof (lowest_device_spec n sizes) as Hspec.
  destruct (lowest_device n sizes) as [r'|e].
  - f_equal. by eapply is_lowest_unique.
  - destruct Hspec as [_ Hnil]. destruct Hr as (m & Hin & _).
    rewrite Hnil in Hin. by apply not_elem_of_nil in Hin.
Qed.

(** With a device configured the counter has the key [0], so the selection
    does not raise. *)
Lemma lowest_device_ok (n : nat) (sizes : list nat) :
  0 < n → ∃ r, lowest_device n sizes = Ok r.
Proof.
  intros Hn. pose proof (lowest_device_spec n sizes) as Hspec.
  destruct (lowest_device n sizes) as [r|e]; [by exists r|].
  destruct Hspec as [_ Hnil].
  assert ((0, 1 + occurrences 0 sizes) ∈ device_counter n sizes) as Hin.
  { apply device_counter_items. rewrite decide_True by done. lia. }
  rewrite Hnil in Hin. by apply not_elem_of_nil in Hin.
Qed.

(** The pigeonhole step: [n] sizes of which one is at least [n] miss one of
    the indices below [n]. *)
Lemma sizes_miss_an_index (n : nat) (sizes : list nat) (r : nat) :
  length sizes = n → n ≤ r → r ∈ sizes → ∃ k, k < n ∧ k ∉ sizes.
Proof.
  intros Hlen Hr Hin.
  destruct (decide (Forall (λ k, k ∈ sizes) (seq 0 n))) as [Hall|Hex].
  - exfalso. rewrite Forall_forall in Hall.
    assert (r :: seq 0 n ⊆+ sizes) as Hsub.
    { apply NoDup_submseteq.
      - apply NoDup_cons. split; [|apply NoDup_seq].
        rewrite elem_of_seq. lia.
      - intros x [->|Hx]%elem_of_cons; [done|by apply Hall]. }
    apply submseteq_length in Hsub. simpl in Hsub. rewrite length_seq in Hsub. lia.
  - apply not_Forall_Exists in Hex; [|apply _].
    apply Exists_exists in Hex as (k & Hk & Hnin).
    exists k. apply elem_of_seq in Hk. split; [lia|done].
Qed.

Lemma lowest_device_in_range (n : nat) (sizes : list nat) (r : nat) :
  length sizes = n → lowest_device n sizes = Ok r → r < n.
Proof.
  intros Hlen Hres. pose proof (lowest_device_spec n sizes) as Hspec.
  rewrite Hres in Hspec. destruct Hspec as (m & Hin & Hmin).
  destruct (decide (r < n)) as [|Hge]; [done|]. exfalso.
  apply device_counter_items in Hin as [Hm Hmeq].
  rewrite decide_False in Hmeq by done. simpl in Hmeq.
  destruct (sizes_miss_an_index n sizes r) as (k & Hk & Hnin); [done|lia| |].
  { apply occurrences_pos. lia. }
  assert (occurrences k sizes = 0) as Hocc.
  { pose proof (occurrences_pos k sizes). destruct (occurrences k sizes); [done|].
    exfalso. apply Hnin. apply H. lia. }
  assert ((k, 1) ∈ device_counter n sizes) as Hk1.
  { apply device_counter_items. rewrite decide_True by done. lia. }
  destruct (Hmin _ _ Hk1) as [Hle Hsmall].
  assert (1 = m) as Heq by lia. specialize (Hsmall Heq). lia.
Qed.

(** ** [get_next_device] *)

Lemma comprehension_sizes (s : Pool) (l : list DeviceParams) :
  Forall (λ d, is_Some (pending s !! device d)) l →
  comprehension l
    (λ d, let! q := getitem pending (device d) in gets (λ s, qsize s q)) s
  = (Ok (map (queue_depth s) l), s).
Proof.
  induction 1 as [|d l [q Hq] Hl IH]; [done|].
  cbn [comprehension]. unfold bind at 1. unfold bind at 1.
  unfold getitem at 1. rewrite Hq. unfold gets at 1.
  unfold bind at 1. rewrite IH. unfold ret. cbn [map].
  unfold queue_depth at 2. by rewrite Hq.
Qed.

Lemma get_next_device_unpinned (s : Pool) :
  Forall (λ d, is_Some (pending s !! device d)) (devices s) →
  get_next_device None s
  = (lowest_device (length (devices s)) (map (queue_depth s) (devices s)), s).
Proof.
  intros Hq. unfold get_next_device, bind.
  by rewrite comprehension_sizes.
Qed.

Lemma get_next_device_cases (s : Pool) (needs_device : option DeviceParams) :
  Forall (λ d, is_Some (pending s !! device d)) (devices s) →
  (∃ i nd d, needs_device = Some nd ∧ devices s !! i = Some d
             ∧ device d = device nd ∧ get_next_device needs_device s = (Ok i, s))
  ∨ get_next_device needs_device s = get_next_device None s.
Proof.
  intros Hq. destruct needs_device as [nd|]; [|by right].
  unfold get_next_device.
  destruct (list_find (λ d, device d = device nd) (devices s)) as [[i d]|] eqn:Hfind.
  - left. apply list_find_Some in Hfind as (Hi & Hd & _).
    by exists i, nd, d.
  - by right.
Qed.

(** C9: in a pool with at least one configured device and a pending queue
    for each of them, [get_next_device], pinned or not, does not raise,
    leaves the pool as it was and returns an index below the number of
    devices, although its counter has queue lengths and device indices as
    keys alike. *)
Theorem get_next_device_in_range (s : Pool) (needs_device : option DeviceParams) :
  devices s ≠ [] →
  Forall (λ d, is_Some (pending s !! device d)) (devices s) →
  ∃ i, get_next_device needs_device s = (Ok i, s) ∧ i < length (devices s).
Proof.
  intros Hdevs Hq.
  destruct (get_next_device_cases s needs_device Hq)
    as [(i & nd & d & _ & Hi & _ & Hres)|Hres].
  - exists i. split; [done|]. by eapply lookup_lt_Some.
  - rewrite Hres, get_next_device_unpinned by done.
    destruct (lowest_device_ok (length (devices s)) (map (queue_depth s) (devices s)))
      as [r Hr].
    { destruct (devices s); [done|simpl; lia]. }
    exists r. rewrite Hr. split; [done|].
    eapply lowest_device_in_range; [|done]. by rewrite length_map.
Qed.

Lemma get_next_device_in_range_witness :
  ∃ i, get_next_device (Some gpu1) two_gpus = (Ok i, two_gpus)
       ∧ i < length (devices two_gpus).
Proof.
  apply (get_next_device_in_range two_gpus (Some gpu1)).
  - vm_compute. discriminate.
  - apply (bool_decide_unpack _). by vm_compute.
Defined.

Lemma occurrences_absent (k : nat) (l : list nat) : k ∉ l → occurrences k l = 0.
Proof.
  intros Hk. pose proof (occurrences_pos k l) as Hpos.
  destruct (occurrences k l); [done|]. exfalso. apply Hk, Hpos. lia.
Qed.

(** C1: in a pool of two or more devices whose queues are all empty (equal
    depth zero), [get_next_device] without a pin returns index 1, not the
    lowest index 0: the count of the key 0 is raised by every empty queue. *)
Theorem get_next_device_idle_pool (s : Pool) :
  2 ≤ length (devices s) →
  Forall (λ d, is_Some (pending s !! device d)) (devices s) →
  Forall (λ d, queue_depth s d = 0) (devices s) →
  get_next_device None s = (Ok 1, s).
Proof.
  intros Hn Hq Hidle. rewrite get_next_device_unpinned by done. f_equal.
  apply lowest_device_intro.
  set (sizes := map (queue_depth s) (devices s)).
  assert (∀ x, x ∈ sizes → x = 0) as Hzero.
  { intros x (d & -> & Hd)%list_elem_of_fmap.
    rewrite Forall_forall in Hidle. by apply Hidle. }
  assert (0 ∈ sizes) as H0.
  { unfold sizes. destruct (devices s) as [|d l] eqn:Hdevs; [simpl in Hn; lia|].
    apply Forall_cons in Hidle as [Hd _]. simpl. rewrite Hd. apply list_elem_of_here. }
  exists 1. split.
  - apply device_counter_items. rewrite decide_True by lia.
    rewrite occurrences_absent; [lia|]. by intros ?%Hzero.
  - intros k v [Hv Hveq]%device_counter_items. split; [lia|].
    intros ->. destruct k; [|lia]. exfalso.
    apply occurrences_pos in H0. rewrite decide_True in Hveq by lia. lia.
Qed.

Lemma get_next_device_idle_pool_witness :
  get_next_device None two_gpus = (Ok 1, two_gpus).
Proof.
  apply (get_next_device_idle_pool two_gpus).
  - vm_compute. lia.
  - apply (bool_decide_unpack _). by vm_compute.
  - apply (bool_decide_unpack _). by vm_compute.
Defined.

(** With every queue at the same depth other than zero the tie does go to
    index 0. *)
Lemma get_next_device_equal_depth (s : Pool) (depth : nat) :
  devices s ≠ [] →
  depth ≠ 0 →
  Forall (λ d, is_Some (pending s !! device d)) (devices s) →
  Forall (λ d, queue_depth s d = depth) (devices s) →
  get_next_device None s = (Ok 0, s).
Proof.
  intros Hdevs Hdepth Hq Heq. rewrite get_next_device_unpinned by done. f_equal.
  apply lowest_device_intro. exists 1. split.
  - apply device_counter_items.
    rewrite decide_True by (destruct (devices s); [done|simpl; lia]).
    rewrite occurrences_absent; [lia|].
    intros (d & Hd & Hin)%list_elem_of_fmap.
    rewrite Forall_forall in Heq. rewrite (Heq d Hin) in Hd. done.
  - intros k v [Hv _]%device_counter_items. split; lia.
Qed.

(** C4: after three unpinned submissions to a pool of two devices, two jobs
    wait on device 0 and one on device 1, and [get_next_device] without a
    pin returns 0, the index of the longer queue. *)
Theorem get_next_device_not_least_loaded :
  queue_depth three_submitted gpu0 = 2
  ∧ queue_depth three_submitted gpu1 = 1
  ∧ get_next_device None three_submitted = (Ok 0, three_submitted).
Proof. by vm_compute. Qed.

(** ** [done] *)

Lemma done_finished (s : Pool) (key : string) (p : Z) (c : bool) (rest : list (string * Z * bool)) :
  finished_jobs s = (key, p, c) :: rest → done s key = (Some true, p).
Proof. unfold done. intros ->. simpl. by rewrite bool_decide_eq_true_2. Qed.

Lemma done_not_finished (s : Pool) (key : string) :
  (∀ p c, (key, p, c) ∉ finished_jobs s) →
  done s key = match active_jobs s !! key with
               | None => (None, 0%Z)
               | Some (_, progress) => (Some false, progress)
               end.
Proof.
  intros Hnot. unfold done.
  destruct (List.find _ (finished_jobs s)) as [[[k p] c]|] eqn:Hfind; [|done].
  apply find_some in Hfind as [Hin Hk]. apply bool_decide_eq_true in Hk as ->.
  exfalso. apply (Hnot p c). by apply list_elem_of_In.
Qed.

Lemma done_never_unknown_and_finished (s : Pool) (key : string) :
  fst (done s key) = None → ∀ p c, (key, p, c) ∉ finished_jobs s.
Proof.
  unfold done. intros Hnone p c Hin.
  destruct (List.find _ (finished_jobs s)) as [[[k' p'] c']|] eqn:Hfind; [done|].
  apply list_elem_of_In in Hin.
  apply (find_none _ _ Hfind) in Hin. simpl in Hin.
  by rewrite bool_decide_eq_true_2 in Hin.
Qed.

(** C2: a key that was submitted and whose job waits on a device queue is
    reported by [done] as [(None, 0)], the answer for a key that was never
    submitted, not as [(False, 0)]. *)
Theorem done_pending_is_unknown :
  fst (submit "job-1" (callable 0) None two_gpus) = Ok tt
  ∧ (∃ q, pending one_submitted !! "gpu1" = Some q
          ∧ queue_items one_submitted q
            = [{| job_key := "job-1"; job_fn := callable 0 |}])
  ∧ done one_submitted "job-1" = (None, 0%Z).
Proof. split; [by vm_compute|]. split; [|by vm_compute]. exists 2. by vm_compute. Qed.

(** ** The finished listener *)

(** C6: a finished message for a key that is not in [active_jobs] makes the
    lookup raise [KeyError]; the loop's handler logs it, and the pool is left
    as it was, with no finished record for the key. *)
Theorem finished_worker_unknown_job (s : Pool) (job dev : string) :
  active_jobs s !! job = None →
  finished_worker (job, dev) s = (Logged KeyError, s).
Proof.
  intros Hjob. unfold finished_worker, try_turn, bind, getitem.
  destruct (context s !! dev); [|done]. by rewrite Hjob.
Qed.

Lemma finished_worker_unknown_job_witness :
  finished_worker ("job-1", "gpu1") one_submitted = (Logged KeyError, one_submitted).
Proof. apply (finished_worker_unknown_job one_submitted). by vm_compute. Defined.

Lemma finished_worker_active_job (s : Pool) (job dev dev' : string)
    (ctx : WorkerContext) (progress : Z) :
  context s !! dev = Some ctx →
  active_jobs s !! job = Some (dev', progress) →
  finished_worker (job, dev) s
  = (Handled,
     set_active_jobs (delete job)
       (set_finished_jobs
          (λ l, l ++ [(job, progress, flag_value s (wc_cancel ctx))]) s)).
Proof.
  intros Hctx Hjob. unfold finished_worker, try_turn, bind, getitem.
  by rewrite Hctx, Hjob.
Qed.

(** ** [status] *)

(** As long as no job is active, [status] returns one tuple for each
    finished record, in the order in which they were recorded and each
    marked finished, and nothing else. *)
Lemma status_finished_only (s : Pool) :
  active_jobs s = ∅ →
  ∃ history,
    status s = (Ok history, s)
    ∧ history = map finished_entry (finished_jobs s)
    ∧ length history = length (finished_jobs s)
    ∧ Forall (λ '(_, _, is_finished, _), is_finished = true) history.
Proof.
  intros Hactive. eexists. split_and!.
  - unfold status, bind, gets. rewrite Hactive, map_to_list_empty. simpl.
    unfold ret. reflexivity.
  - done.
  - by rewrite length_map.
  - apply Forall_forall. intros [[[k p] f] c] Hin.
    apply list_elem_of_In, in_map_iff in Hin as ([[k' p'] c'] & [= _ _ <- _] & _).
    done.
Qed.

Lemma status_finished_only_witness :
  finished_jobs one_finished = [("job-1", 5%Z, false)]
  ∧ ∃ history,
      status one_finished = (Ok history, one_finished)
      ∧ history = map finished_entry (finished_jobs one_finished)
      ∧ length history = length (finished_jobs one_finished)
      ∧ Forall (λ '(_, _, is_finished, _), is_finished = true) history.
Proof.
  split; [by vm_compute|].
  apply (status_finished_only one_finished). by vm_compute.
Defined.

(** A job that was submitted and has produced no progress message is in
    neither map: after one submission and no completion [status] does not
    return a list of one entry. *)
Lemma status_misses_pending_job :
  ¬ ∃ history, fst (status one_submitted) = Ok history ∧ length history = 1.
Proof. intros (history & Hst & Hlen). vm_compute in Hst. by injection Hst as <-. Qed.

(** C7: after two submissions, of which one has produced a finished record
    and the other is active, [status] returns no list of two tuples: the
    comprehension over [active_jobs.items()] unpacks the pair of the active
    job into three names, so the call raises [ValueError] and the pool is
    left as it was. *)
Theorem status_raises_after_submissions :
  finished_jobs finished_and_active = [("job-1", 5%Z, false)]
  ∧ active_jobs finished_and_active !! "job-2" = Some ("gpu0", 3%Z)
  ∧ status finished_and_active = (Raise ValueError, finished_and_active).
Proof. by vm_compute. Qed.

(** ** [cancel] and the progress listener *)

Lemma cancel_not_active (s : Pool) (key : string) :
  active_jobs s !! key = None →
  cancel key s = (Ok true, set_cancelled_jobs (λ l, l ++ [key]) s).
Proof.
  intros Hkey. unfold cancel, bind, modify, gets. pool_simpl. by rewrite Hkey.
Qed.

Lemma cancel_active (s : Pool) (key dev : string) (progress : Z) (ctx : WorkerContext) :
  active_jobs s !! key = Some (dev, progress) →
  context s !! dev = Some ctx →
  cancel key s
  = (Ok true,
     set_flags <[wc_cancel ctx := true]> (set_cancelled_jobs (λ l, l ++ [key]) s)).
Proof.
  intros Hkey Hctx. unfold cancel, bind, modify, gets, getitem. pool_simpl.
  rewrite Hkey. pool_simpl. by rewrite Hctx.
Qed.

Lemma progress_worker_requested (s : Pool) (key dev : string) (value : Z)
    (ctx : WorkerContext) :
  key ∈ cancelled_jobs s →
  context s !! dev = Some ctx →
  progress_worker (key, dev, value) s
  = (Handled,
     set_flags <[wc_cancel ctx := true]>
       (set_active_jobs <[key := (dev, value)]> s)).
Proof.
  intros Hkey Hctx. unfold progress_worker, try_turn, bind, modify, gets, getitem.
  pool_simpl. rewrite bool_decide_eq_true_2 by done. pool_simpl. by rewrite Hctx.
Qed.

Lemma progress_worker_not_requested (s : Pool) (key dev : string) (value : Z) :
  key ∉ cancelled_jobs s →
  progress_worker (key, dev, value) s
  = (Handled, set_active_jobs <[key := (dev, value)]> s).
Proof.
  intros Hkey. unfold progress_worker, try_turn, bind, modify, gets.
  pool_simpl. by rewrite bool_decide_eq_false_2 by done.
Qed.

(** C5: for a key that is not active, [cancel] returns [True] and only
    records the key in [cancelled_jobs]: the pending map, every queue and
    every cancel flag stay as they were. The flag of the device is set when
    the progress listener handles a progress message for that key, and a
    progress message for a key that is not in [cancelled_jobs] sets no
    flag. *)
Theorem cancel_before_active (s : Pool) (key dev : string) (value : Z)
    (ctx : WorkerContext) :
  active_jobs s !! key = None →
  context s !! dev = Some ctx →
  let s1 := snd (cancel key s) in
  fst (cancel key s) = Ok true
  ∧ key ∈ cancelled_jobs s1
  ∧ pending s1 = pending s ∧ queues s1 = queues s ∧ flags s1 = flags s
  ∧ (∃ s2, progress_worker (key, dev, value) s1 = (Handled, s2)
           ∧ flags s2 = <[wc_cancel ctx := true]> (flags s)
           ∧ flag_value s2 (wc_cancel ctx) = true
           ∧ pending s2 = pending s ∧ queues s2 = queues s)
  ∧ (∀ s' key', key' ∉ cancelled_jobs s' →
       flags (snd (progress_worker (key', dev, value) s')) = flags s').
Proof.
  intros Hkey Hctx. rewrite cancel_not_active by done. cbn [fst snd].
  split_and!; try done.
  - cbn. apply elem_of_app. right. apply list_elem_of_here.
  - eexists. split; [apply (progress_worker_requested _ _ _ _ ctx)|].
    + cbn. apply elem_of_app. right. apply list_elem_of_here.
    + done.
    + split_and!; try done.
      unfold flag_value. cbn. by rewrite lookup_insert_eq.
  - intros s' key' Hkey'. by rewrite progress_worker_not_requested.
Qed.

Lemma cancel_before_active_witness :
  let s1 := snd (cancel "job-1" one_submitted) in
  fst (cancel "job-1" one_submitted) = Ok true
  ∧ "job-1" ∈ cancelled_jobs s1
  ∧ pending s1 = pending one_submitted ∧ queues s1 = queues one_submitted
  ∧ flags s1 = flags one_submitted
  ∧ (∃ s2, progress_worker ("job-1", "gpu1", 1%Z) s1 = (Handled, s2)
           ∧ flags s2 = <[3 := true]> (flags one_submitted)
           ∧ flag_value s2 3 = true
           ∧ pending s2 = pending one_submitted ∧ queues s2 = queues one_submitted)
  ∧ (∀ s' key', key' ∉ cancelled_jobs s' →
       flags (snd (progress_worker (key', "gpu1", 1%Z) s')) = flags s').
Proof.
  apply (cancel_before_active one_submitted "job-1" "gpu1" 1%Z
           {| wc_name := "gpu1"; wc_device := gpu1; wc_cancel := 3; wc_pending := 2 |}).
  - by vm_compute.
  - by vm_compute.
Defined.

(** C10: the cancel flag belongs to the device. The finished listener
    stores, as the [cancelled] field of a record, the value that the flag of
    the message's device has at that moment; so once [cancel] of a job that
    is active on a device has set that device's flag, the finished message
    of another job for the same device is recorded as cancelled. *)
Theorem cancel_flag_is_per_device (s : Pool) (keyA keyB dev devB : string)
    (pA pB : Z) (ctx : WorkerContext) :
  context s !! dev = Some ctx →
  active_jobs s !! keyA = Some (dev, pA) →
  active_jobs s !! keyB = Some (devB, pB) →
  finished_jobs (snd (finished_worker (keyB, dev) s))
  = finished_jobs s ++ [(keyB, pB, flag_value s (wc_cancel ctx))]
  ∧ flag_value (snd (cancel keyA s)) (wc_cancel ctx) = true
  ∧ finished_jobs (snd (finished_worker (keyB, dev) (snd (cancel keyA s))))
    = finished_jobs s ++ [(keyB, pB, true)].
Proof.
  intros Hctx HA HB.
  rewrite (finished_worker_active_job s keyB dev devB ctx pB) by done.
  rewrite (cancel_active s keyA dev pA ctx) by done. cbn [snd].
  assert (flag_value
            (set_flags <[wc_cancel ctx := true]>
               (set_cancelled_jobs (λ l, l ++ [keyA]) s)) (wc_cancel ctx) = true)
    as Hflag.
  { unfold flag_value. cbn. by rewrite lookup_insert_eq. }
  split_and!; [done|done|].
  rewrite (finished_worker_active_job _ keyB dev devB ctx pB) by done.
  cbn [snd]. cbn. by rewrite Hflag.
Qed.

Lemma cancel_flag_is_per_device_witness :
  finished_jobs (snd (finished_worker ("b", "gpu0") two_active))
  = finished_jobs two_active ++ [("b", 2%Z, flag_value two_active 1)]
  ∧ flag_value (snd (cancel "a" two_active)) 1 = true
  ∧ finished_jobs (snd (finished_worker ("b", "gpu0") (snd (cancel "a" two_active))))
    = finished_jobs two_active ++ [("b", 2%Z, true)].
Proof.
  apply (cancel_flag_is_per_device two_active "a" "b" "gpu0" "gpu0" 1%Z 2%Z
           {| wc_name := "gpu0"; wc_device := gpu0; wc_cancel := 1; wc_pending := 0 |});
    by vm_compute.
Defined.

(** ** [create_device_worker] and [recycle] *)

Lemma create_device_worker_known (s : Pool) (dev : DeviceParams) (q : loc) :
  pending s !! device dev = Some q →
  let ctx := {| wc_name := device dev; wc_device := dev;
                wc_cancel := next_loc s; wc_pending := q |} in
  let p := {| pid := next_pid s; proc_context := ctx |} in
  create_device_worker dev s
  = (Ok tt,
     with_processes (<[device dev := Some p]> (workers s))
       (<[device dev := ctx]> (context s)) ({[next_pid s]} ∪ alive s)
       (<[next_loc s := false]> (flags s)) (S (next_loc s)) (S (next_pid s)) s).
Proof.
  intros Hq. unfold create_device_worker, bind, gets. rewrite Hq. done.
Qed.

(** The first loop of [recycle]: every worker is stopped and its entry set
    to [None]. *)
Lemma recycle_stops_workers (items : list (string * option Process)) (s : Pool) :
  Forall (λ nw, is_Some nw.2) items →
  ∃ W A,
    for_each items (λ '(name, proc),
      match proc with
      | None => raise AttributeError
      | Some p =>
          let! running := gets (λ s, is_alive s p) in
          (if running then terminate p else ret tt) ;;
          modify (set_workers <[name := None]>)
      end) s
    = (Ok tt, with_processes W (context s) A (flags s) (next_loc s) (next_pid s) s)
    ∧ A ⊆ alive s
    ∧ (∀ n p, (n, Some p) ∈ items → pid p ∉ A)
    ∧ (∀ n, is_Some (W !! n) → is_Some (workers s !! n) ∨ n ∈ items.*1).
Proof.
  revert s. induction items as [|[n w] items IH]; intros s Hall.
  - exists (workers s), (alive s). split_and!; [by destruct s|done| |by left].
    intros n p Hin. by apply not_elem_of_nil in Hin.
  - apply Forall_cons in Hall as [[p Hw] Hall]. simpl in Hw. subst w.
    cbn [for_each].
    unfold bind at 1. unfold bind at 1. unfold gets at 1. unfold bind at 1.
    set (s1 := if is_alive s p then set_alive (λ a, a ∖ {[pid p]}) s else s).
    assert ((if is_alive s p then terminate p else ret tt) s = (Ok tt, s1)) as ->.
    { unfold s1. by destruct (is_alive s p). }
    unfold modify at 1.
    destruct (IH (set_workers <[n := None]> s1) Hall) as (W & A & -> & HA & Hpid & HW).
    assert (alive s1 ⊆ alive s ∧ pid p ∉ alive s1) as [Hsub Hp].
    { unfold s1, is_alive. case_bool_decide as Hrun; pool_simpl; [|done].
      split; [by apply subseteq_difference_l|].
      rewrite not_elem_of_difference. right. by apply elem_of_singleton. }
    exists W, A. split_and!.
    + unfold s1. by destruct (is_alive s p).
    + pool_simpl. by etrans.
    + intros n' p' [[= -> ->]|Hin]%elem_of_cons; [|by eapply Hpid].
      pool_simpl. intros HpA. by apply Hp, HA.
    + intros n' HWn. rewrite fmap_cons, elem_of_cons. cbn [fst].
      destruct (HW n' HWn) as [Hold|Hin]; [|by auto].
      pool_simpl. destruct (decide (n = n')) as [->|Hne]; [by auto|].
      rewrite lookup_insert_ne in Hold by done. left.
      unfold s1 in Hold. by destruct (is_alive s p).
Qed.

(** The second loop of [recycle]: a new process for each configured device,
    bound to the queue the device already has. *)
Lemma recycle_starts_workers (l : list DeviceParams) (s : Pool) :
  Forall (λ d, is_Some (pending s !! device d)) l →
  ∃ W C A F nl np,
    for_each l create_device_worker s = (Ok tt, with_processes W C A F nl np s)
    ∧ next_pid s ≤ np
    ∧ alive s ⊆ A
    ∧ (∀ x, x ∈ A → x ∈ alive s ∨ next_pid s ≤ x < np)
    ∧ (∀ n, n ∉ device <$> l →
         W !! n = workers s !! n ∧ C !! n = context s !! n)
    ∧ (∀ n, n ∈ device <$> l →
         ∃ p q, W !! n = Some (Some p)
                ∧ next_pid s ≤ pid p < np
                ∧ pid p ∈ A
                ∧ C !! n = Some (proc_context p)
                ∧ pending s !! n = Some q
                ∧ wc_pending (proc_context p) = q).
Proof.
  revert s. induction l as [|d l IH]; intros s Hall.
  - exists (workers s), (context s), (alive s), (flags s), (next_loc s), (next_pid s).
    split_and!; [by destruct s|done|done|by left|done|].
    intros n Hn. by apply not_elem_of_nil in Hn.
  - apply Forall_cons in Hall as [[q Hq] Hall]. cbn [for_each].
    unfold bind at 1. rewrite (create_device_worker_known s d q Hq).
    match goal with |- context [with_processes ?W ?C ?A ?F ?nl ?np s] =>
      set (s1 := with_processes W C A F nl np s) end.
    destruct (IH s1 Hall) as (W & C & A & F & nl & np & -> & Hnp & HA & HA' & Hout & Hin).
    exists W, C, A, F, nl, np.
    assert (next_pid s1 = S (next_pid s)) as Hnext by done.
    assert (alive s1 = {[next_pid s]} ∪ alive s) as Halive by done.
    assert (pending s1 = pending s) as Hpending by done.
    rewrite Hnext in *. rewrite Halive in *. rewrite Hpending in *.
    split_and!; [done|lia|by etrans; [apply union_subseteq_r|]| | |].
    + intros x Hx. destruct (HA' x Hx) as [Hx'|Hx']; [|right; lia].
      apply elem_of_union in Hx' as [->%elem_of_singleton|Hx']; [right; lia|by left].
    + intros n Hn. rewrite fmap_cons, not_elem_of_cons in Hn. destruct Hn as [Hne Hn].
      destruct (Hout n Hn) as [-> ->]. unfold s1. cbn [workers context with_processes].
      by rewrite !lookup_insert_ne.
    + intros n Hn. destruct (decide (n ∈ device <$> l)) as [Hl|Hl].
      * destruct (Hin n Hl) as (p & q' & HW & Hpid & HpA & HC & Hpend & Hwc).
        exists p, q'. split_and!; try done; lia.
      * rewrite fmap_cons, elem_of_cons in Hn. destruct Hn as [->|Hn]; [|done].
        destruct (Hout _ Hl) as [HW HC]. unfold s1 in HW, HC.
        cbn [workers context with_processes] in HW, HC.
        rewrite lookup_insert_eq in HW. rewrite lookup_insert_eq in HC.
        eexists _, q. split_and!; [exact HW|cbn; lia|cbn; lia| |exact HC|done|done].
        cbn. by apply HA, elem_of_union_l, elem_of_singleton.
Qed.

Lemma pool_ok_with_processes (s : Pool) (W : gmap string (option Process))
    (C : gmap string WorkerContext) (A : gset nat) (F : gmap loc bool)
    (nl : loc) (np : nat) :
  pool_ok s →
  map_Forall (λ name w,
    (∃ p, w = Some p ∧ pid p < np) ∧ name ∈ device <$> devices s) W →
  pool_ok (with_processes W C A F nl np s).
Proof. intros [Hq _] HW. by split. Qed.

(** What [recycle] does to a well-formed pool. *)
Lemma recycle_spec (s : Pool) :
  pool_ok s →
  ∃ W C A F nl np,
    recycle s = (Ok tt, with_processes W C A F nl np s)
    ∧ pool_ok (with_processes W C A F nl np s)
    ∧ (∀ n w, workers s !! n = Some w →
         ∃ p, w = Some p ∧ pid p < next_pid s ∧ pid p ∉ A)
    ∧ (∀ n, n ∈ device <$> devices s →
         ∃ p q, W !! n = Some (Some p)
                ∧ next_pid s ≤ pid p < np
                ∧ pid p ∈ A
                ∧ C !! n = Some (proc_context p)
                ∧ pending s !! n = Some q
                ∧ wc_pending (proc_context p) = q).
Proof.
  intros Hok. pose proof Hok as [Hq Hw].
  unfold recycle. unfold bind at 1. unfold gets at 1. unfold bind at 1.
  destruct (recycle_stops_workers (map_to_list (workers s)) s)
    as (W1 & A1 & -> & HA1 & Hdead & HW1).
  { apply Forall_forall. intros [n w] Hin%elem_of_map_to_list.
    destruct (Hw n w Hin) as [(p & -> & _) _]. by eexists. }
  unfold bind at 1. unfold gets at 1.
  set (s1 := with_processes W1 (context s) A1 (flags s) (next_loc s) (next_pid s) s).
  change (devices s1) with (devices s).
  destruct (recycle_starts_workers (devices s) s1 Hq)
    as (W & C & A & F & nl & np & -> & Hnp & HA & HA' & Hout & Hin).
  exists W, C, A, F, nl, np.
  change (next_pid s1) with (next_pid s) in *.
  change (alive s1) with A1 in *.
  change (pending s1) with (pending s) in *.
  change (workers s1) with W1 in *.
  split_and!; [done| | |done].
  - apply pool_ok_with_processes; [done|].
    intros n w HWn. destruct (decide (n ∈ device <$> devices s)) as [Hn|Hn].
    + split; [|done]. destruct (Hin n Hn) as (p & q & HWp & Hpid & _).
      exists p. split; [congruence|lia].
    + exfalso. destruct (Hout n Hn) as [HWeq _]. rewrite HWeq in HWn.
      assert (is_Some (workers s !! n)) as [w' Hw'].
      { destruct (HW1 n (mk_is_Some _ _ HWn)) as [|Hitem]; [done|].
        apply list_elem_of_fmap in Hitem as ([n' w'] & -> & Hitem).
        apply elem_of_map_to_list in Hitem. by eexists. }
      by destruct (Hw n w' Hw') as [_ ?].
  - intros n w Hwn. destruct (Hw n w Hwn) as [(p & -> & Hpid) _].
    exists p. split_and!; [done|done|].
    intros HpA. destruct (HA' _ HpA) as [HpA1|?]; [|lia].
    apply (Hdead n p); [|done]. by apply elem_of_map_to_list.
Qed.

(** C8: [recycle] replaces every worker process and leaves the pending
    queues alone: the pending map and the contents of every queue are the
    same before and after, every entry of [self.workers] is a newly started
    process while the old one has been terminated, and the worker started
    for a device is bound to the queue that the device had before. *)
Theorem recycle_keeps_queues (s : Pool) :
  pool_ok s →
  ∃ s2,
    recycle s = (Ok tt, s2)
    ∧ pending s2 = pending s
    ∧ queues s2 = queues s
    ∧ (∀ n w, workers s !! n = Some w →
         ∃ p_old p_new,
           w = Some p_old
           ∧ workers s2 !! n = Some (Some p_new)
           ∧ pid p_old < pid p_new
           ∧ (pid p_old ∉ alive s2)
           ∧ pid p_new ∈ alive s2)
    ∧ (∀ d, d ∈ devices s →
         ∃ p q,
           workers s2 !! device d = Some (Some p)
           ∧ pid p ∈ alive s2
           ∧ context s2 !! device d = Some (proc_context p)
           ∧ pending s !! device d = Some q
           ∧ wc_pending (proc_context p) = q
           ∧ queue_items s2 q = queue_items s q).
Proof.
  intros Hok. pose proof Hok as [_ Hw].
  destruct (recycle_spec s Hok) as (W & C & A & F & nl & np & -> & _ & Hold & Hnew).
  eexists. split_and!; [done|done|done| |].
  - intros n w Hwn. destruct (Hold n w Hwn) as (p_old & -> & Hpid & Hdead).
    destruct (Hw n _ Hwn) as [_ Hn].
    destruct (Hnew n Hn) as (p_new & q & HW & Hfresh & Halive & _).
    exists p_old, p_new. split_and!; [done|done|lia|done|done].
  - intros d Hd.
    destruct (Hnew (device d)) as (p & q & HW & _ & Halive & HC & Hq & Hwc).
    { by apply list_elem_of_fmap_2. }
    by exists p, q.
Qed.

(** ** [__init__] *)

Lemma create_device_worker_effect (s : Pool) (dev : DeviceParams) :
  ∃ s', create_device_worker dev s = (Ok tt, s')
    ∧ devices s' = devices s
    ∧ is_Some (pending s' !! device dev)
    ∧ (∀ n, is_Some (pending s !! n) → is_Some (pending s' !! n))
    ∧ next_pid s' = S (next_pid s)
    ∧ ∃ ctx, workers s'
             = <[device dev := Some {| pid := next_pid s; proc_context := ctx |}]>
                 (workers s).
Proof.
  destruct (pending s !! device dev) as [q|] eqn:Hq.
  - rewrite (create_device_worker_known s dev q Hq).
    eexists. split; [done|]. pool_simpl. cbn [with_processes pending devices next_pid workers].
    split_and!; [done|by rewrite Hq|done|done|by eexists].
  - unfold create_device_worker, bind, gets. rewrite Hq.
    eexists. split; [done|]. cbn.
    split_and!; [done|by rewrite lookup_insert_eq| |done|by eexists].
    intros n Hn. destruct (decide (device dev = n)) as [<-|Hne].
    + by rewrite lookup_insert_eq.
    + by rewrite lookup_insert_ne.
Qed.

Lemma init_loop_ok (l : list DeviceParams) (names : list string) (s : Pool) :
  (∀ d, d ∈ l → device d ∈ names) →
  map_Forall (λ name w,
    (∃ p, w = Some p ∧ pid p < next_pid s) ∧ name ∈ names) (workers s) →
  devices (snd (for_each l create_device_worker s)) = devices s
  ∧ (∀ n, is_Some (pending s !! n) ∨ n ∈ device <$> l →
          is_Some (pending (snd (for_each l create_device_worker s)) !! n))
  ∧ map_Forall (λ name w,
      (∃ p, w = Some p
            ∧ pid p < next_pid (snd (for_each l create_device_worker s)))
      ∧ name ∈ names)
      (workers (snd (for_each l create_device_worker s))).
Proof.
  revert s. induction l as [|d l IH]; intros s Hnames Hw.
  - split_and!; [done| |done].
    intros n [Hn|Hn]; [done|by apply not_elem_of_nil in Hn].
  - destruct (create_device_worker_effect s d)
      as (s1 & Hs1 & Hdevs & Hd & Hkeep & Hnext & ctx & Hworkers).
    assert (for_each (d :: l) create_device_worker s
            = for_each l create_device_worker s1) as ->.
    { cbn [for_each]. unfold bind at 1. by rewrite Hs1. }
    destruct (IH s1) as (Hdevs' & Hpend & Hw').
    { intros d' Hd'. apply Hnames. by apply list_elem_of_further. }
    { rewrite Hworkers, Hnext. apply map_Forall_insert_2.
      - split; [eexists; split; [done|cbn; lia]|]. apply Hnames, list_elem_of_here.
      - intros n w Hn. destruct (Hw n w Hn) as [(p & -> & Hp) Hin].
        split; [|done]. exists p. split; [done|lia]. }
    split_and!; [congruence| |done].
    intros n Hn. apply Hpend. rewrite fmap_cons, elem_of_cons in Hn.
    destruct Hn as [Hn|[->|Hn]]; [left; by apply Hkeep|by left|by right].
Qed.

Lemma init_devices (devs : list DeviceParams) (max_jobs : Z) :
  devices (init devs max_jobs) = devs.
Proof.
  unfold init.
  match goal with |- devices (snd (for_each _ _ ?s0)) = _ =>
    destruct (init_loop_ok devs (device <$> devs) s0) as (-> & _)
  end; [|done|done].
  intros d Hd. by apply list_elem_of_fmap_2.
Qed.

Lemma init_ok (devs : list DeviceParams) (max_jobs : Z) :
  pool_ok (init devs max_jobs).
Proof.
  unfold pool_ok. rewrite init_devices. unfold init.
  match goal with |- context [for_each _ _ ?s0] =>
    destruct (init_loop_ok devs (device <$> devs) s0) as (_ & Hpend & Hw)
  end.
  { intros d Hd. by apply list_elem_of_fmap_2. }
  { done. }
  split; [|done].
  apply Forall_forall. intros d Hd. apply Hpend. right. by apply list_elem_of_fmap_2.
Qed.

(** ** [submit] *)

Lemma comprehension_readonly {A B} (l : list A) (body : A → M B) :
  (∀ x s, snd (body x s) = s) → ∀ s, snd (comprehension l body s) = s.
Proof.
  intros Hbody. induction l as [|x l IH]; intros s; [done|].
  cbn [comprehension]. unfold bind at 1.
  pose proof (Hbody x s) as Hx. destruct (body x s) as [[y|e] s1]; cbn in Hx; subst s1; [|done].
  unfold bind at 1.
  pose proof (IH s) as Hl. destruct (comprehension l body s) as [[ys|e] s1]; cbn in Hl; by subst s1.
Qed.

Lemma get_next_device_readonly (s : Pool) (needs_device : option DeviceParams) :
  snd (get_next_device needs_device s) = s.
Proof.
  unfold get_next_device.
  destruct (match needs_device with Some _ => _ | None => _ end); [done|].
  unfold bind at 1.
  match goal with |- context [comprehension ?l ?body s] =>
    pose proof (comprehension_readonly l body) as Hro;
    destruct (comprehension l body s) as [[sizes|e] s1] eqn:Hc
  end.
  - rewrite <- (Hro ltac:(intros d s0; unfold bind, getitem;
                          by destruct (pending s0 !! device d)) s), Hc. done.
  - rewrite <- (Hro ltac:(intros d s0; unfold bind, getitem;
                          by destruct (pending s0 !! device d)) s), Hc. done.
Qed.

(** The part of [submit] after the recycling check only writes to a queue. *)
Lemma submit_assigns (key : string) (fn : Callable)
    (needs_device : option DeviceParams) (s : Pool) :
  ∃ Q, snd ((let! device_idx := get_next_device needs_device in
             let! dev := list_getitem devices device_idx in
             let! q := getitem pending (device dev) in
             put q {| job_key := key; job_fn := fn |}) s)
       = set_queues (λ _, Q) s.
Proof.
  unfold bind at 1.
  pose proof (get_next_device_readonly s needs_device) as Hro.
  destruct (get_next_device needs_device s) as [[i|e] s1]; cbn in Hro; subst s1;
    [|exists (queues s); by destruct s].
  unfold bind at 1, list_getitem.
  destruct (devices s !! i) as [dev|]; [|exists (queues s); by destruct s].
  unfold bind at 1, getitem.
  destruct (pending s !! device dev) as [q|]; [|exists (queues s); by destruct s].
  by eexists.
Qed.

Lemma submit_below_threshold (key : string) (fn : Callable)
    (needs_device : option DeviceParams) (s : Pool) :
  (total_jobs s + 1 ≤ max_jobs_per_worker s)%Z →
  ∃ Q, snd (submit key fn needs_device s)
       = set_queues (λ _, Q) (set_total_jobs (λ n, n + 1)%Z s).
Proof.
  intros Hle. unfold submit. unfold bind at 1. unfold modify at 1.
  unfold bind at 1. unfold gets at 1. pool_simpl.
  assert ((max_jobs_per_worker s <? total_jobs s + 1)%Z = false) as ->
    by by apply Z.ltb_ge.
  unfold bind at 1. unfold ret at 1.
  apply submit_assigns.
Qed.

Lemma submit_past_threshold (key : string) (fn : Callable)
    (needs_device : option DeviceParams) (s : Pool) :
  pool_ok s →
  (max_jobs_per_worker s < total_jobs s + 1)%Z →
  ∃ W C A F nl np Q,
    snd (submit key fn needs_device s)
    = set_queues (λ _, Q)
        (set_total_jobs (λ _, 0%Z) (with_processes W C A F nl np s))
    ∧ pool_ok (with_processes W C A F nl np s)
    ∧ (∀ n w, workers s !! n = Some w →
         ∃ p, w = Some p ∧ pid p < next_pid s ∧ pid p ∉ A)
    ∧ (∀ n, n ∈ device <$> devices s →
         ∃ p, W !! n = Some (Some p) ∧ next_pid s ≤ pid p ∧ pid p ∈ A).
Proof.
  intros Hok Hlt. unfold submit. unfold bind at 1. unfold modify at 1.
  unfold bind at 1. unfold gets at 1. pool_simpl.
  assert ((max_jobs_per_worker s <? total_jobs s + 1)%Z = true) as ->
    by by apply Z.ltb_lt.
  unfold bind at 1. unfold bind at 1.
  destruct (recycle_spec (set_total_jobs (λ n, n + 1)%Z s) Hok)
    as (W & C & A & F & nl & np & Hrec & Hok2 & Hold & Hnew).
  rewrite Hrec. unfold modify at 1.
  destruct (submit_assigns key fn needs_device
              (set_total_jobs (λ _, 0%Z)
                 (with_processes W C A F nl np (set_total_jobs (λ n, n + 1)%Z s))))
    as [Q HQ].
  exists W, C, A, F, nl, np, Q. split_and!; [exact HQ|exact Hok2|exact Hold|].
  intros n Hn. destruct (Hnew n Hn) as (p & q & HW & Hpid & HA & _).
  pool_simpl. exists p. split_and!; [done|lia|done].
Qed.

Lemma submit_ok (key : string) (fn : Callable)
    (needs_device : option DeviceParams) (s : Pool) :
  pool_ok s → pool_ok (snd (submit key fn needs_device s)).
Proof.
  intros Hok.
  destruct (Z.le_gt_cases (total_jobs s + 1) (max_jobs_per_worker s)) as [Hle|Hgt].
  - destruct (submit_below_threshold key fn needs_device s Hle) as [Q ->].
    exact Hok.
  - destruct (submit_past_threshold key fn needs_device s Hok Hgt)
      as (W & C & A & F & nl & np & Q & -> & Hok2 & _).
    exact Hok2.
Qed.

Lemma submit_all_ok (jobs : list (string * Callable * option DeviceParams)) (s : Pool) :
  pool_ok s → pool_ok (submit_all jobs s).
Proof.
  unfold submit_all. revert s.
  induction jobs as [|[[key fn] nd] jobs IH]; intros s Hok; [done|].
  cbn [fold_left]. by apply IH, submit_ok.
Qed.

Lemma submit_all_below_threshold
    (jobs : list (string * Callable * option DeviceParams)) (s : Pool) :
  (total_jobs s + Z.of_nat (length jobs) ≤ max_jobs_per_worker s)%Z →
  ∃ Q, submit_all jobs s
       = set_queues (λ _, Q)
           (set_total_jobs (λ _, total_jobs s + Z.of_nat (length jobs))%Z s).
Proof.
  unfold submit_all. revert s.
  induction jobs as [|[[key fn] nd] jobs IH]; intros s Hle.
  - exists (queues s). cbn. rewrite Z.add_0_r. by destruct s.
  - cbn [fold_left]. cbn [length] in Hle.
    destruct (submit_below_threshold key fn nd s) as [Q ->]; [lia|].
    destruct (IH (set_queues (λ _, Q) (set_total_jobs (λ n, n + 1)%Z s)))
      as [Q' ->]; [pool_simpl; lia|].
    exists Q'. pool_simpl. cbn [length].
    replace (total_jobs s + 1 + Z.of_nat (length jobs))%Z
      with (total_jobs s + Z.of_nat (S (length jobs)))%Z by lia.
    done.
Qed.

(** C3: from a job counter of zero, [max_jobs_per_worker] submissions leave
    every worker process as it was and count up to the threshold; the next
    [submit] recycles, so that every worker is a newly started process and
    the old ones are stopped, and sets the counter back to zero. *)
Theorem submit_recycles_past_threshold
    (s : Pool) (jobs : list (string * Callable * option DeviceParams))
    (key : string) (fn : Callable) (needs_device : option DeviceParams) :
  pool_ok s →
  total_jobs s = 0%Z →
  Z.of_nat (length jobs) = max_jobs_per_worker s →
  (∀ k, k ≤ length jobs →
     total_jobs (submit_all (take k jobs) s) = Z.of_nat k
     ∧ workers (submit_all (take k jobs) s) = workers s
     ∧ alive (submit_all (take k jobs) s) = alive s
     ∧ next_pid (submit_all (take k jobs) s) = next_pid s)
  ∧ total_jobs (snd (submit key fn needs_device (submit_all jobs s))) = 0%Z
  ∧ (∀ n w, workers (submit_all jobs s) !! n = Some w →
       ∃ p_old p_new,
         w = Some p_old
         ∧ workers (snd (submit key fn needs_device (submit_all jobs s))) !! n
           = Some (Some p_new)
         ∧ pid p_old < pid p_new
         ∧ (pid p_old ∉ alive (snd (submit key fn needs_device (submit_all jobs s))))
         ∧ pid p_new ∈ alive (snd (submit key fn needs_device (submit_all jobs s)))).
Proof.
  intros Hok Hzero Hmax. split.
  - intros k Hk.
    destruct (submit_all_below_threshold (take k jobs) s) as [Q ->].
    { rewrite length_take. lia. }
    pool_simpl. rewrite length_take. split_and!; [lia|done|done|done].
  - destruct (submit_all_below_threshold jobs s) as [Q ->]; [lia|].
    set (s1 := set_queues (λ _, Q) (set_total_jobs _ s)).
    assert (pool_ok s1) as Hok1 by exact Hok.
    destruct (submit_past_threshold key fn needs_device s1 Hok1)
      as (W & C & A & F & nl & np & Q' & -> & Hok2 & Hold & Hnew).
    { unfold s1. pool_simpl. lia. }
    split; [done|]. pool_simpl.
    intros n w Hwn. destruct (Hold n w Hwn) as (p_old & -> & Hpid & Hdead).
    destruct Hok1 as [_ Hw]. destruct (Hw n _ Hwn) as [_ Hn].
    destruct (Hnew n Hn) as (p_new & HW & Hfresh & Halive).
    exists p_old, p_new. cbn [with_processes workers alive].
    split_and!; [done|done|lia|done|done].
Qed.

Lemma submit_recycles_past_threshold_witness :
  (∀ k, k ≤ length two_jobs →
     total_jobs (submit_all (take k two_jobs) small_pool) = Z.of_nat k
     ∧ workers (submit_all (take k two_jobs) small_pool) = workers small_pool
     ∧ alive (submit_all (take k two_jobs) small_pool) = alive small_pool
     ∧ next_pid (submit_all (take k two_jobs) small_pool) = next_pid small_pool)
  ∧ total_jobs (snd (submit "c" (callable 2) None (submit_all two_jobs small_pool)))
    = 0%Z
  ∧ (∀ n w, workers (submit_all two_jobs small_pool) !! n = Some w →
       ∃ p_old p_new,
         w = Some p_old
         ∧ workers (snd (submit "c" (callable 2) None (submit_all two_jobs small_pool)))
             !! n
           = Some (Some p_new)
         ∧ pid p_old < pid p_new
         ∧ (pid p_old
              ∉ alive (snd (submit "c" (callable 2) None (submit_all two_jobs small_pool))))
         ∧ pid p_new
             ∈ alive (snd (submit "c" (callable 2) None (submit_all two_jobs small_pool)))).
Proof.
  apply (submit_recycles_past_threshold small_pool two_jobs "c" (callable 2) None).
  - unfold small_pool. apply init_ok.
  - by vm_compute.
  - by vm_compute.
Defined.

Lemma recycle_keeps_queues_witness :
  ∃ s2,
    recycle three_submitted = (Ok tt, s2)
    ∧ pending s2 = pending three_submitted
    ∧ queues s2 = queues three_submitted
    ∧ (∀ n w, workers three_submitted !! n = Some w →
         ∃ p_old p_new,
           w = Some p_old
           ∧ workers s2 !! n = Some (Some p_new)
           ∧ pid p_old < pid p_new
           ∧ (pid p_old ∉ alive s2)
           ∧ pid p_new ∈ alive s2)
    ∧ (∀ d, d ∈ devices three_submitted →
         ∃ p q,
           workers s2 !! device d = Some (Some p)
           ∧ pid p ∈ alive s2
           ∧ context s2 !! device d = Some (proc_context p)
           ∧ pending three_submitted !! device d = Some q
           ∧ wc_pending (proc_context p) = q
           ∧ queue_items s2 q = queue_items three_submitted q).
Proof.
  apply (recycle_keeps_queues three_submitted).
  unfold three_submitted, two_gpus. apply submit_all_ok, init_ok.
Defined.

(** [submit] registers the job in neither [active_jobs] nor
    [finished_jobs], so what [done] answers for any key is what it answered
    before the submission. *)
Lemma submit_keeps_done (key key' : string) (fn : Callable)
    (needs_device : option DeviceParams) (s : Pool) :
  pool_ok s → done (snd (submit key fn needs_device s)) key' = done s key'.
Proof.
  intros Hok.
  destruct (Z.le_gt_cases (total_jobs s + 1) (max_jobs_per_worker s)) as [Hle|Hgt].
  - by destruct (submit_below_threshold key fn needs_device s Hle) as [Q ->].
  - by destruct (submit_past_threshold key fn needs_device s Hok Hgt)
      as (W & C & A & F & nl & np & Q & -> & _).
Qed.

(** ** The pool invariant *)

Lemma recycle_ok (s : Pool) : pool_ok s → pool_ok (snd (recycle s)).
Proof.
  intros Hok.
  by destruct (recycle_spec s Hok) as (W & C & A & F & nl & np & -> & Hok2 & _).
Qed.

Lemma cancel_ok (s : Pool) (key : string) :
  pool_ok s → pool_ok (snd (cancel key s)).
Proof.
  intros Hok. unfold cancel, bind, modify, gets, getitem. pool_simpl.
  destruct (active_jobs s !! key) as [[dev progress]|]; [|exact Hok].
  pool_simpl. destruct (context s !! dev); exact Hok.
Qed.

Lemma progress_worker_ok (s : Pool) (msg : string * string * Z) :
  pool_ok s → pool_ok (snd (progress_worker msg s)).
Proof.
  intros Hok. destruct msg as [[job dev] value].
  unfold progress_worker, try_turn, bind, modify, gets, getitem. pool_simpl.
  destruct (bool_decide (job ∈ cancelled_jobs s)); [|exact Hok].
  pool_simpl. destruct (context s !! dev); exact Hok.
Qed.

Lemma finished_worker_ok (s : Pool) (msg : string * string) :
  pool_ok s → pool_ok (snd (finished_worker msg s)).
Proof.
  intros Hok. destruct msg as [job dev].
  unfold finished_worker, try_turn, bind, getitem.
  destruct (context s !! dev); [|exact Hok].
  destruct (active_jobs s !! job) as [[dev' progress]|]; exact Hok.
Qed.

(** * Further properties of the pool *)

(** Reading a field of an updated pool, [with_processes] included. *)
Ltac store_simpl :=
  cbn [devices max_jobs_per_worker context pending workers active_jobs
       cancelled_jobs finished_jobs total_jobs queues flags alive next_loc
       next_pid set_context set_pending set_workers set_active_jobs
       set_cancelled_jobs set_finished_jobs set_total_jobs set_queues
       set_flags set_alive set_next_loc set_next_pid with_processes
       fst snd] in *.

(** ** More on [get_next_device] *)

(** X1: a pin on a configured device wins over the load: the answer is the
    first index with the pinned name whatever the queues hold, even when
    they are missing. *)
Theorem get_next_device_pinned (s : Pool) (nd d : DeviceParams) (i : nat) :
  devices s !! i = Some d →
  device d = device nd →
  (∀ j d', j < i → devices s !! j = Some d' → device d' ≠ device nd) →
  get_next_device (Some nd) s = (Ok i, s).
Proof.
  intros Hi Hd Hfirst. unfold get_next_device.
  assert (list_find (λ d, device d = device nd) (devices s) = Some (i, d)) as ->; [|done].
  apply list_find_Some. split_and!; [done|done|].
  intros j d' Hj Hlt. by eapply Hfirst.
Qed.

Lemma get_next_device_pinned_witness :
  get_next_device (Some gpu1) three_submitted = (Ok 1, three_submitted).
Proof.
  apply (get_next_device_pinned three_submitted gpu1 gpu1 1).
  - by vm_compute.
  - done.
  - intros j d' Hj Hd'. destruct j as [|j]; [|lia].
    vm_compute in Hd'. by injection Hd' as <-.
Defined.

(** X2: a pin on a name that no configured device has is ignored: the
    answer is that of the unpinned call. *)
Theorem get_next_device_unknown_pin (s : Pool) (nd : DeviceParams) :
  Forall (λ d, device d ≠ device nd) (devices s) →
  get_next_device (Some nd) s = get_next_device None s.
Proof.
  intros Hnone. unfold get_next_device.
  destruct (list_find (λ d, device d = device nd) (devices s)) as [[i d]|] eqn:Hfind;
    [|done].
  apply list_find_Some in Hfind as (Hi & Hd & _).
  rewrite Forall_forall in Hnone. exfalso.
  apply (Hnone d); [|done]. by eapply list_elem_of_lookup_2.
Qed.

Lemma get_next_device_unknown_pin_witness :
  get_next_device
    (Some {| device := "cpu"; provider := "CPUExecutionProvider"; options := None |})
    three_submitted
  = get_next_device None three_submitted.
Proof.
  apply (get_next_device_unknown_pin three_submitted).
  apply (bool_decide_unpack _). by vm_compute.
Defined.

(** With no device configured [get_next_device] raises [IndexError],
    pinned or not. *)
Lemma get_next_device_no_devices (s : Pool) (needs_device : option DeviceParams) :
  devices s = [] →
  get_next_device needs_device s = (Raise IndexError, s).
Proof.
  intros Hdevs. unfold get_next_device. rewrite Hdevs.
  by destruct needs_device.
Qed.

(** Without a pin, a configured device that has no pending queue makes
    [get_next_device] raise [KeyError]. *)
Lemma get_next_device_missing_queue (s : Pool) (d : DeviceParams) :
  d ∈ devices s →
  pending s !! device d = None →
  get_next_device None s = (Raise KeyError, s).
Proof.
  intros Hd Hq. unfold get_next_device, bind.
  assert (∀ l, d ∈ l →
            comprehension l
              (λ d, let! q := getitem pending (device d) in gets (λ s, qsize s q)) s
            = (Raise KeyError, s)) as ->; [|done|done].
  induction l as [|d' l IH]; intros Hin; [by apply not_elem_of_nil in Hin|].
  cbn [comprehension]. unfold bind at 1. unfold bind at 1. unfold getitem at 1.
  destruct (pending s !! device d') as [q|] eqn:Hq'; [|done].
  unfold gets at 1. unfold bind at 1.
  apply elem_of_cons in Hin as [->|Hin]; [congruence|].
  by rewrite IH.
Qed.

Lemma lowest_device_unused (n k : nat) (sizes : list nat) :
  k < n → k ∉ sizes → (∀ j, j < k → j ∈ sizes) →
  lowest_device n sizes = Ok k.
Proof.
  intros Hk Hnot Hbelow. apply lowest_device_intro. exists 1. split.
  - apply device_counter_items. rewrite decide_True by done.
    rewrite occurrences_absent by done. lia.
  - intros k' v [Hv Hveq]%device_counter_items. split; [lia|].
    intros ->. destruct (decide (k ≤ k')) as [|Hlt]; [done|]. exfalso.
    assert (k' ∈ sizes) as Hin%occurrences_pos by (apply Hbelow; lia).
    rewrite decide_True in Hveq by lia. lia.
Qed.

Lemma lowest_device_all_used (n : nat) (sizes : list nat) :
  0 < n → length sizes = n → (∀ j, j < n → j ∈ sizes) →
  lowest_device n sizes = Ok 0.
Proof.
  intros Hn Hlen Hall.
  assert (seq 0 n ≡ₚ sizes) as Hperm.
  { apply submseteq_length_Permutation; [|rewrite length_seq; lia].
    apply NoDup_submseteq; [apply NoDup_seq|].
    intros x Hx%elem_of_seq. apply Hall. lia. }
  assert (∀ k, occurrences k sizes = if decide (k < n) then 1 else 0) as Hocc.
  { intros k. rewrite <- occurrences_seq. unfold occurrences.
    symmetry. by apply Permutation_count_occ. }
  apply lowest_device_intro. exists 2. split.
  - apply device_counter_items. rewrite Hocc, decide_True by done. lia.
  - intros k v [Hv Hveq]%device_counter_items. rewrite Hocc in Hveq.
    case_decide; lia.
Qed.

(** X3: what the unpinned [get_next_device] computes. In a pool with a
    device and a queue for each device, it returns the least device index
    that is not the length of any device's queue, and 0 when every index is
    the length of some queue. *)
Theorem get_next_device_least_unused (s : Pool) :
  devices s ≠ [] →
  Forall (λ d, is_Some (pending s !! device d)) (devices s) →
  get_next_device None s
  = (Ok (least_unused (length (devices s)) (queue_depths s)), s).
Proof.
  intros Hdevs Hq. rewrite get_next_device_unpinned by done. f_equal.
  fold (queue_depths s). unfold least_unused.
  assert (0 < length (devices s)) as Hn by (destruct (devices s); [done|simpl; lia]).
  assert (length (queue_depths s) = length (devices s)) as Hlen
    by apply length_map.
  destruct (list_find _ (seq 0 (length (devices s)))) as [[i k]|] eqn:Hfind; cbn.
  - apply list_find_Some in Hfind as (Hi & Hk & Hleast).
    apply lookup_seq in Hi as [-> Hi]. apply lowest_device_unused; [done|done|].
    intros j Hj. destruct (decide (j ∈ queue_depths s)) as [|Hnot]; [done|].
    exfalso. apply (Hleast j j); [apply lookup_seq; lia|lia|done].
  - apply lowest_device_all_used; [done|done|].
    intros j Hj. rewrite list_find_None, Forall_forall in Hfind.
    destruct (decide (j ∈ queue_depths s)) as [|Hnot]; [done|].
    exfalso. apply (Hfind j); [apply elem_of_seq; lia|done].
Qed.

Lemma get_next_device_least_unused_witness :
  get_next_device None three_submitted
  = (Ok (least_unused (length (devices three_submitted))
           (queue_depths three_submitted)), three_submitted).
Proof.
  apply (get_next_device_least_unused three_submitted).
  - vm_compute. discriminate.
  - apply (bool_decide_unpack _). by vm_compute.
Defined.

(** ** More on [cancel], [done] and the listeners *)

Lemma progress_worker_state (s : Pool) (key dev : string) (value : Z) :
  ∃ F, snd (progress_worker (key, dev, value) s)
       = set_flags (λ _, F) (set_active_jobs <[key := (dev, value)]> s)
       ∧ (F = flags s
          ∨ ∃ ctx, key ∈ cancelled_jobs s ∧ context s !! dev = Some ctx
                   ∧ F = <[wc_cancel ctx := true]> (flags s)).
Proof.
  destruct (decide (key ∈ cancelled_jobs s)) as [Hreq|Hreq].
  - destruct (context s !! dev) as [ctx|] eqn:Hctx.
    + rewrite (progress_worker_requested s key dev value ctx) by done.
      eexists. split; [done|]. right. by exists ctx.
    + exists (flags s). split; [|by left].
      unfold progress_worker, try_turn, bind, modify, gets, getitem. pool_simpl.
      rewrite bool_decide_eq_true_2 by done. pool_simpl. by rewrite Hctx.
  - rewrite progress_worker_not_requested by done.
    exists (flags s). split; [done|by left].
Qed.

Lemma find_finished_app (key : string) (p : Z) (c : bool)
    (l1 l2 : list (string * Z * bool)) :
  (∀ p' c', (key, p', c') ∉ l1) →
  List.find (λ '(k, _, _), bool_decide (k = key)) (l1 ++ (key, p, c) :: l2)
  = Some (key, p, c).
Proof.
  intros Hl1. induction l1 as [|[[k' p'] c'] l1 IH]; cbn.
  - by rewrite bool_decide_eq_true_2.
  - case_bool_decide as Hk.
    + subst k'. exfalso. apply (Hl1 p' c'). apply list_elem_of_here.
    + apply IH. intros p'' c'' Hin. apply (Hl1 p'' c'').
      by apply list_elem_of_further.
Qed.

(** X4: [cancel] of an active job whose device has no context raises
    [KeyError], and the request stays recorded in [cancelled_jobs]. *)
Theorem cancel_unknown_device (s : Pool) (key dev : string) (progress : Z) :
  active_jobs s !! key = Some (dev, progress) →
  context s !! dev = None →
  cancel key s = (Raise KeyError, set_cancelled_jobs (λ l, l ++ [key]) s).
Proof.
  intros Hkey Hctx. unfold cancel, bind, modify, gets, getitem. pool_simpl.
  rewrite Hkey. pool_simpl. by rewrite Hctx.
Qed.

Lemma cancel_unknown_device_witness :
  cancel "job-1" stray_progress
  = (Raise KeyError, set_cancelled_jobs (λ l, l ++ ["job-1"]) stray_progress).
Proof.
  apply (cancel_unknown_device stray_progress "job-1" "tpu9" 1%Z); by vm_compute.
Defined.

(** X5: [done] answers from the oldest finished record of the key, and does
    so whether or not the key is also in [active_jobs]. *)
Theorem done_first_record (s : Pool) (key : string) (p : Z) (c : bool)
    (older newer : list (string * Z * bool)) :
  finished_jobs s = older ++ (key, p, c) :: newer →
  (∀ p' c', (key, p', c') ∉ older) →
  done s key = (Some true, p).
Proof.
  intros Hfin Holder. unfold done. rewrite Hfin.
  by rewrite (find_finished_app key p c older newer Holder).
Qed.

Lemma done_first_record_witness : done one_finished "job-1" = (Some true, 5%Z).
Proof.
  apply (done_first_record one_finished "job-1" 5%Z false [] []).
  - by vm_compute.
  - intros p c Hin. by apply not_elem_of_nil in Hin.
Defined.

(** X6: after a progress message for a key that has no finished record,
    [done] reports the key as not finished with the value of that message;
    this holds as well when the listener logs a [KeyError] for the device. *)
Theorem progress_then_done (s : Pool) (key dev : string) (value : Z) :
  (∀ p c, (key, p, c) ∉ finished_jobs s) →
  done (snd (progress_worker (key, dev, value) s)) key = (Some false, value).
Proof.
  intros Hfin. destruct (progress_worker_state s key dev value) as (F & -> & _).
  rewrite done_not_finished by done. pool_simpl. by rewrite lookup_insert_eq.
Qed.

Lemma progress_then_done_witness :
  done (snd (progress_worker ("job-1", "tpu9", 7%Z) one_submitted)) "job-1"
  = (Some false, 7%Z).
Proof.
  apply (progress_then_done one_submitted "job-1" "tpu9" 7%Z).
  intros p c Hin. vm_compute in Hin. by apply not_elem_of_nil in Hin.
Defined.



(** X8: a finished message that arrives a second time is not recorded a
    second time: the key is no longer active, the lookup raises [KeyError],
    the listener logs it and the pool stays as the first message left it. *)
Theorem finished_twice (s : Pool) (key dev dev' : string) (progress : Z)
    (ctx : WorkerContext) :
  context s !! dev = Some ctx →
  active_jobs s !! key = Some (dev', progress) →
  ∃ s1,
    finished_worker (key, dev) s = (Handled, s1)
    ∧ finished_jobs s1 = finished_jobs s ++ [(key, progress, flag_value s (wc_cancel ctx))]
    ∧ finished_worker (key, dev) s1 = (Logged KeyError, s1).
Proof.
  intros Hctx Hkey.
  rewrite (finished_worker_active_job s key dev dev' ctx progress) by done.
  eexists. split_and!; [done|done|].
  unfold finished_worker, try_turn, bind, getitem. pool_simpl.
  rewrite Hctx. pool_simpl. by rewrite lookup_delete_eq.
Qed.

Lemma finished_twice_witness :
  ∃ s1,
    finished_worker ("a", "gpu0") two_active = (Handled, s1)
    ∧ finished_jobs s1 = finished_jobs two_active ++ [("a", 1%Z, flag_value two_active 1)]
    ∧ finished_worker ("a", "gpu0") s1 = (Logged KeyError, s1).
Proof.
  apply (finished_twice two_active "a" "gpu0" "gpu0" 1%Z
           {| wc_name := "gpu0"; wc_device := gpu0; wc_cancel := 1; wc_pending := 0 |});
    by vm_compute.
Defined.

(** X9: a finished message that names a device without a context is
    dropped: the lookup of the context raises [KeyError] before anything is
    written, so an active job stays active and [done] keeps reporting it as
    not finished. *)
Theorem finished_unknown_device (s : Pool) (key dev dev' : string) (progress : Z) :
  context s !! dev = None →
  active_jobs s !! key = Some (dev', progress) →
  (∀ p c, (key, p, c) ∉ finished_jobs s) →
  finished_worker (key, dev) s = (Logged KeyError, s)
  ∧ done (snd (finished_worker (key, dev) s)) key = (Some false, progress).
Proof.
  intros Hctx Hkey Hfin.
  assert (finished_worker (key, dev) s = (Logged KeyError, s)) as ->.
  { unfold finished_worker, try_turn, bind, getitem. by rewrite Hctx. }
  split; [done|]. rewrite done_not_finished by done. pool_simpl. by rewrite Hkey.
Qed.

Lemma finished_unknown_device_witness :
  finished_worker ("a", "tpu9") two_active = (Logged KeyError, two_active)
  ∧ done (snd (finished_worker ("a", "tpu9") two_active)) "a" = (Some false, 1%Z).
Proof.
  apply (finished_unknown_device two_active "a" "tpu9" "gpu0" 1%Z).
  - by vm_compute.
  - by vm_compute.
  - intros p c Hin. vm_compute in Hin. by apply not_elem_of_nil in Hin.
Defined.

(** X10: while any job is active [status] raises [ValueError], whatever the
    finished records are, and leaves the pool as it was. *)
Theorem status_raises_when_active (s : Pool) (key dev : string) (progress : Z) :
  active_jobs s !! key = Some (dev, progress) →
  status s = (Raise ValueError, s).
Proof.
  intros Hkey. unfold status. unfold bind at 1. unfold gets at 1.
  destruct (map_to_list (active_jobs s)) as [|item items] eqn:Hitems.
  - apply map_to_list_empty_iff in Hitems. by rewrite Hitems in Hkey.
  - done.
Qed.

Lemma status_raises_when_active_witness :
  status two_active = (Raise ValueError, two_active).
Proof.
  apply (status_raises_when_active two_active "a" "gpu0" 1%Z). by vm_compute.
Defined.

(** X11: [get_job_context] answers for active jobs only. After a progress
    message for a device that has a context it returns that context; after
    the finished message of the job it raises [KeyError] again, as it does
    for a job that is still waiting on its queue. *)
Theorem get_job_context_active_only (s : Pool) (key dev : string) (value : Z)
    (ctx : WorkerContext) :
  context s !! dev = Some ctx →
  let s1 := snd (progress_worker (key, dev, value) s) in
  let s2 := snd (finished_worker (key, dev) s1) in
  get_job_context key s1 = (Ok ctx, s1)
  ∧ get_job_context key s2 = (Raise KeyError, s2).
Proof.
  intros Hctx s1 s2.
  destruct (progress_worker_state s key dev value) as (F & Hs1 & _).
  fold s1 in Hs1.
  assert (context s1 = context s
          ∧ active_jobs s1 = <[key := (dev, value)]> (active_jobs s)) as [Hc1 Ha1]
    by by rewrite Hs1.
  split.
  - unfold get_job_context, bind, getitem.
    by rewrite Ha1, lookup_insert_eq, Hc1, Hctx.
  - unfold s2.
    rewrite (finished_worker_active_job s1 key dev dev ctx value);
      [|by rewrite Hc1|by rewrite Ha1, lookup_insert_eq].
    unfold get_job_context, bind, getitem. pool_simpl.
    by rewrite lookup_delete_eq.
Qed.

Lemma get_job_context_active_only_witness :
  let s1 := snd (progress_worker ("job-1", "gpu1", 5%Z) one_submitted) in
  let s2 := snd (finished_worker ("job-1", "gpu1") s1) in
  get_job_context "job-1" s1
  = (Ok {| wc_name := "gpu1"; wc_device := gpu1; wc_cancel := 3; wc_pending := 2 |}, s1)
  ∧ get_job_context "job-1" s2 = (Raise KeyError, s2).
Proof.
  apply (get_job_context_active_only one_submitted "job-1" "gpu1" 5%Z).
  by vm_compute.
Defined.

(** ** More on [submit] *)

Lemma get_next_device_index (s : Pool) (needs_device : option DeviceParams) :
  devices s ≠ [] →
  Forall (λ d, is_Some (pending s !! device d)) (devices s) →
  ∃ i d, get_next_device needs_device s = (Ok i, s) ∧ devices s !! i = Some d.
Proof.
  intros Hdevs Hq.
  destruct (get_next_device_cases s needs_device Hq)
    as [(i & nd & d & _ & Hi & _ & Hres)|Hres].
  - by exists i, d.
  - rewrite Hres, get_next_device_unpinned by done.
    destruct (lowest_device_ok (length (devices s)) (map (queue_depth s) (devices s)))
      as [r Hr].
    { destruct (devices s); [done|simpl; lia]. }
    assert (r < length (devices s)) as [d Hd]%lookup_lt_is_Some_2.
    { eapply lowest_device_in_range; [|done]. by rewrite length_map. }
    exists r, d. by rewrite Hr.
Qed.

Lemma get_next_device_frame (s s' : Pool) (needs_device : option DeviceParams) :
  Forall (λ d, is_Some (pending s !! device d)) (devices s) →
  devices s' = devices s → pending s' = pending s → queues s' = queues s →
  fst (get_next_device needs_device s') = fst (get_next_device needs_device s).
Proof.
  intros Hq Hdevs Hpend Hqueues.
  assert (Forall (λ d, is_Some (pending s' !! device d)) (devices s')) as Hq'
    by by rewrite Hdevs, Hpend.
  assert (fst (get_next_device None s') = fst (get_next_device None s)) as Hnone.
  { rewrite !get_next_device_unpinned by done. cbn [fst]. rewrite Hdevs. f_equal.
    apply map_ext. intros d. unfold queue_depth, qsize, queue_items.
    by rewrite Hpend, Hqueues. }
  destruct needs_device as [nd|]; [|done].
  assert (∀ s0, get_next_device (Some nd) s0
                = match list_find (λ d, device d = device nd) (devices s0) with
                  | Some (i, _) => (Ok i, s0)
                  | None => get_next_device None s0
                  end) as Hpin.
  { intros s0. unfold get_next_device.
    by destruct (list_find _ (devices s0)) as [[i d]|]. }
  rewrite !Hpin, Hdevs.
  by destruct (list_find _ (devices s)) as [[i d]|].
Qed.

Lemma submit_assign (key : string) (fn : Callable)
    (needs_device : option DeviceParams) :
  submit key fn needs_device
  = (modify (set_total_jobs (λ n, n + 1)%Z) ;;
     let! over := gets (λ s, (max_jobs_per_worker s <? total_jobs s)%Z) in
     (if over then recycle ;; modify (set_total_jobs (λ _, 0%Z)) else ret tt) ;;
     assign_job key fn needs_device).
Proof. done. Qed.

Lemma assign_job_enqueues (key : string) (fn : Callable)
    (needs_device : option DeviceParams) (s : Pool) :
  devices s ≠ [] →
  Forall (λ d, is_Some (pending s !! device d)) (devices s) →
  ∃ i d q,
    get_next_device needs_device s = (Ok i, s)
    ∧ devices s !! i = Some d
    ∧ pending s !! device d = Some q
    ∧ assign_job key fn needs_device s
      = (Ok tt, set_queues <[q := queue_items s q ++ [job_of key fn]]> s).
Proof.
  intros Hdevs Hq.
  destruct (get_next_device_index s needs_device Hdevs Hq) as (i & d & Hres & Hd).
  pose proof Hq as Hall. rewrite Forall_forall in Hall.
  destruct (Hall d) as [q Hpend]; [by eapply list_elem_of_lookup_2|].
  exists i, d, q. split_and!; [done|done|done|].
  unfold assign_job. unfold bind at 1. rewrite Hres.
  unfold bind at 1, list_getitem. rewrite Hd.
  unfold bind at 1, getitem. by rewrite Hpend.
Qed.

Lemma assign_job_cases (key : string) (fn : Callable)
    (needs_device : option DeviceParams) (s : Pool) :
  snd (assign_job key fn needs_device s) = s
  ∨ ∃ q, snd (assign_job key fn needs_device s)
         = set_queues <[q := queue_items s q ++ [job_of key fn]]> s.
Proof.
  unfold assign_job, bind, list_getitem, getitem.
  pose proof (get_next_device_readonly s needs_device) as Hro.
  destruct (get_next_device needs_device s) as [[i|e] s1]; cbn in Hro; subst s1;
    [|by left].
  destruct (devices s !! i) as [dev|]; [|by left].
  destruct (pending s !! device dev) as [q|]; [|by left].
  right. by exists q.
Qed.

(** How [submit] runs on a well-formed pool, in both branches of the
    recycling check. *)
Lemma submit_run (key : string) (fn : Callable)
    (needs_device : option DeviceParams) (s : Pool) :
  pool_ok s →
  ∃ s1,
    submit key fn needs_device s = assign_job key fn needs_device s1
    ∧ pool_ok s1
    ∧ devices s1 = devices s ∧ max_jobs_per_worker s1 = max_jobs_per_worker s
    ∧ pending s1 = pending s ∧ queues s1 = queues s
    ∧ active_jobs s1 = active_jobs s
    ∧ finished_jobs s1 = finished_jobs s ∧ cancelled_jobs s1 = cancelled_jobs s
    ∧ ((total_jobs s + 1 ≤ max_jobs_per_worker s
        ∧ total_jobs s1 = total_jobs s + 1)
       ∨ (max_jobs_per_worker s < total_jobs s + 1 ∧ total_jobs s1 = 0))%Z.
Proof.
  intros Hok. rewrite submit_assign. unfold bind at 1. unfold modify at 1.
  unfold bind at 1. unfold gets at 1. pool_simpl.
  destruct (Z.le_gt_cases (total_jobs s + 1) (max_jobs_per_worker s)) as [Hle|Hgt].
  - assert ((max_jobs_per_worker s <? total_jobs s + 1)%Z = false) as ->
      by by apply Z.ltb_ge.
    unfold bind at 1. unfold ret at 1.
    eexists. split; [done|]. split_and!; try done. by left.
  - assert ((max_jobs_per_worker s <? total_jobs s + 1)%Z = true) as ->
      by by apply Z.ltb_lt.
    unfold bind at 1. unfold bind at 1.
    destruct (recycle_spec (set_total_jobs (λ n, n + 1)%Z s) Hok)
      as (W & C & A & F & nl & np & -> & Hok2 & _).
    unfold modify at 1.
    eexists. split; [done|]. split_and!; try done. by right.
Qed.

(** X12: on a well-formed pool with a device, [submit] does not raise: it
    appends the job at the tail of the queue of the device that
    [get_next_device] picks on the pool as it is, and changes no other
    queue and no binding of [self.pending], whether or not it recycles on
    the way. *)
Theorem submit_enqueues (key : string) (fn : Callable)
    (needs_device : option DeviceParams) (s : Pool) :
  pool_ok s →
  devices s ≠ [] →
  ∃ i d q,
    fst (get_next_device needs_device s) = Ok i
    ∧ devices s !! i = Some d
    ∧ pending s !! device d = Some q
    ∧ fst (submit key fn needs_device s) = Ok tt
    ∧ pending (snd (submit key fn needs_device s)) = pending s
    ∧ queues (snd (submit key fn needs_device s))
      = <[q := queue_items s q ++ [job_of key fn]]> (queues s).
Proof.
  intros Hok Hdevs. pose proof Hok as [Hq _].
  destruct (submit_run key fn needs_device s Hok)
    as (s1 & -> & [Hq1 _] & Hd1 & _ & Hp1 & Hqu1 & _).
  destruct (assign_job_enqueues key fn needs_device s1) as (i & d & q & Hres & Hd & Hpend & ->);
    [by rewrite Hd1|done|].
  exists i, d, q. split_and!.
  - rewrite <- (get_next_device_frame s s1) by done. by rewrite Hres.
  - by rewrite <- Hd1.
  - by rewrite <- Hp1.
  - done.
  - done.
  - pool_simpl. unfold queue_items. by rewrite Hqu1.
Qed.

Lemma submit_enqueues_witness :
  ∃ i d q,
    fst (get_next_device (Some gpu0) three_submitted) = Ok i
    ∧ devices three_submitted !! i = Some d
    ∧ pending three_submitted !! device d = Some q
    ∧ fst (submit "d" (callable 3) (Some gpu0) three_submitted) = Ok tt
    ∧ pending (snd (submit "d" (callable 3) (Some gpu0) three_submitted))
      = pending three_submitted
    ∧ queues (snd (submit "d" (callable 3) (Some gpu0) three_submitted))
      = <[q := queue_items three_submitted q ++ [job_of "d" (callable 3)]]>
          (queues three_submitted).
Proof.
  apply (submit_enqueues "d" (callable 3) (Some gpu0) three_submitted).
  - unfold three_submitted, two_gpus. apply submit_all_ok, init_ok.
  - vm_compute. discriminate.
Defined.

(** X13: with no device configured [submit] raises [IndexError], and the
    job counter has moved all the same: it is one higher, or back at zero
    when the call recycled. *)
Theorem submit_no_devices (key : string) (fn : Callable)
    (needs_device : option DeviceParams) (s : Pool) :
  pool_ok s →
  devices s = [] →
  fst (submit key fn needs_device s) = Raise IndexError
  ∧ total_jobs (snd (submit key fn needs_device s))
    = (if (max_jobs_per_worker s <? total_jobs s + 1)%Z then 0
       else total_jobs s + 1)%Z.
Proof.
  intros Hok Hdevs.
  destruct (submit_run key fn needs_device s Hok)
    as (s1 & -> & _ & Hd1 & _ & _ & _ & _ & _ & _ & Htotal).
  assert (assign_job key fn needs_device s1 = (Raise IndexError, s1)) as ->.
  { unfold assign_job, bind. by rewrite get_next_device_no_devices by by rewrite Hd1. }
  cbn [fst snd]. split; [done|].
  destruct Htotal as [[Hle ->]|[Hgt ->]].
  - by rewrite (proj2 (Z.ltb_ge _ _)).
  - by rewrite (proj2 (Z.ltb_lt _ _)).
Qed.

Lemma submit_no_devices_witness :
  fst (submit "a" (callable 0) None (init [] 10)) = Raise IndexError
  ∧ total_jobs (snd (submit "a" (callable 0) None (init [] 10)))
    = (if (max_jobs_per_worker (init [] 10) <? total_jobs (init [] 10) + 1)%Z
       then 0 else total_jobs (init [] 10) + 1)%Z.
Proof.
  apply (submit_no_devices "a" (callable 0) None (init [] 10)).
  - apply init_ok.
  - apply init_devices.
Defined.

(** ** Histories *)

Lemma grows_from_refl (s : Pool) : grows_from s s.
Proof. unfold grows_from. split_and!; try done; by intros. Qed.

Lemma grows_from_trans (s1 s2 s3 : Pool) :
  grows_from s1 s2 → grows_from s2 s3 → grows_from s1 s3.
Proof.
  intros (Hd & Hm & Hp & Hq & Hf & Hc) (Hd' & Hm' & Hp' & Hq' & Hf' & Hc').
  split_and!; try congruence.
  - intros q. etrans; [apply Hq|apply Hq'].
  - etrans; [exact Hf|exact Hf'].
  - etrans; [exact Hc|exact Hc'].
Qed.

Lemma cancel_state (s : Pool) (key : string) :
  ∃ F, snd (cancel key s)
       = set_flags (λ _, F) (set_cancelled_jobs (λ l, l ++ [key]) s).
Proof.
  unfold cancel, bind, modify, gets, getitem. pool_simpl.
  destruct (active_jobs s !! key) as [[dev progress]|]; [|by exists (flags s)].
  pool_simpl. destruct (context s !! dev); [by eexists|by exists (flags s)].
Qed.

Lemma finished_worker_state (s : Pool) (msg : string * string) :
  snd (finished_worker msg s) = s
  ∨ ∃ record, snd (finished_worker msg s)
              = set_active_jobs (delete msg.1)
                  (set_finished_jobs (λ l, l ++ [record]) s).
Proof.
  destruct msg as [job dev]. unfold finished_worker, try_turn, bind, getitem.
  destruct (context s !! dev); [|by left].
  destruct (active_jobs s !! job) as [[dev' progress]|]; [|by left].
  right. by eexists.
Qed.

Lemma run_op_spec (op : Op) (s : Pool) :
  pool_ok s →
  pool_ok (run_op op s)
  ∧ grows_from s (run_op op s)
  ∧ (counter_ok s → counter_ok (run_op op s)).
Proof.
  intros Hok. destruct op as [key fn nd|key| |[[job dev] value]|msg]; cbn [run_op].
  - destruct (submit_run key fn nd s Hok)
      as (s1 & -> & Hok1 & Hd & Hm & Hp & Hq & _ & Hf & Hc & Htotal).
    assert (grows_from s s1) as Hg1.
    { split_and!; try done; [|by rewrite Hf|by rewrite Hc].
      intros q. unfold queue_items. by rewrite Hq. }
    assert (counter_ok s → counter_ok s1) as Hcount.
    { unfold counter_ok. rewrite Hm. intros Hs.
      destruct Htotal as [[Hle ->]|[Hgt ->]]; lia. }
    destruct (assign_job_cases key fn nd s1) as [->|[q ->]]; [done|].
    split_and!; [exact Hok1| |exact Hcount].
    eapply grows_from_trans; [exact Hg1|].
    split_and!; try done. intros q'. unfold queue_items at 2. pool_simpl.
    destruct (decide (q = q')) as [->|Hne].
    + rewrite lookup_insert_eq. cbn. by apply prefix_app_r.
    + by rewrite lookup_insert_ne.
  - destruct (cancel_state s key) as [F ->].
    split_and!; [exact Hok| |done].
    split_and!; try done. pool_simpl. by apply prefix_app_r.
  - destruct (recycle_spec s Hok) as (W & C & A & F & nl & np & -> & Hok2 & _).
    split_and!; [exact Hok2| |done]. by split_and!.
  - destruct (progress_worker_state s job dev value) as (F & -> & _).
    split_and!; [exact Hok| |done]. by split_and!.
  - destruct (finished_worker_state s msg) as [->|[record ->]].
    + split_and!; [done|apply grows_from_refl|done].
    + split_and!; [exact Hok| |done].
      split_and!; try done. pool_simpl. by apply prefix_app_r.
Qed.

Lemma run_ops_spec (ops : list Op) (s : Pool) :
  pool_ok s →
  pool_ok (run_ops ops s)
  ∧ grows_from s (run_ops ops s)
  ∧ (counter_ok s → counter_ok (run_ops ops s)).
Proof.
  unfold run_ops. revert s. induction ops as [|op ops IH]; intros s Hok.
  - split_and!; [done|apply grows_from_refl|done].
  - cbn [fold_left].
    destruct (run_op_spec op s Hok) as (Hok1 & Hg1 & Hc1).
    destruct (IH _ Hok1) as (Hok2 & Hg2 & Hc2).
    split_and!; [done|by eapply grows_from_trans|auto].
Qed.

Lemma find_app_Some {A} (f : A → bool) (l k : list A) (x : A) :
  List.find f l = Some x → List.find f (l ++ k) = Some x.
Proof.
  induction l as [|y l IH]; cbn; [done|]. by destruct (f y).
Qed.

(** X14: a pool built by [__init__] with at least one device accepts every
    [submit], pinned or not, after any history of submissions,
    cancellations, recycles and listener messages. *)
Theorem history_submit_succeeds (devs : list DeviceParams) (max_jobs : Z)
    (ops : list Op) (key : string) (fn : Callable)
    (needs_device : option DeviceParams) :
  devs ≠ [] →
  fst (submit key fn needs_device (run_ops ops (init devs max_jobs))) = Ok tt.
Proof.
  intros Hdevs.
  destruct (run_ops_spec ops (init devs max_jobs) (init_ok devs max_jobs))
    as (Hok & (Hd & _) & _).
  rewrite init_devices in Hd.
  destruct (submit_run key fn needs_device _ Hok) as (s1 & -> & [Hq1 _] & Hd1 & _).
  destruct (assign_job_enqueues key fn needs_device s1) as (i & d & q & _ & _ & _ & ->);
    [congruence|done|done].
Qed.

Lemma history_submit_succeeds_witness :
  fst (submit "z" (callable 9) None (run_ops sample_history (init [gpu0; gpu1] 10)))
  = Ok tt.
Proof. by apply (history_submit_succeeds [gpu0; gpu1] 10 sample_history). Defined.

(** X15: the pool never takes a job off a queue and never rebinds a queue:
    over any history on a well-formed pool, each device name keeps its queue
    object and each queue keeps what it held, in order, at its head. *)
Theorem history_keeps_queued_jobs (s : Pool) (ops : list Op) :
  pool_ok s →
  pending (run_ops ops s) = pending s
  ∧ ∀ q, queue_items s q `prefix_of` queue_items (run_ops ops s) q.
Proof.
  intros Hok. by destruct (run_ops_spec ops s Hok) as (_ & (_ & _ & Hp & Hq & _) & _).
Qed.

Lemma history_keeps_queued_jobs_witness :
  pending (run_ops sample_history three_submitted) = pending three_submitted
  ∧ ∀ q, queue_items three_submitted q
         `prefix_of` queue_items (run_ops sample_history three_submitted) q.
Proof.
  apply (history_keeps_queued_jobs three_submitted sample_history).
  unfold three_submitted, two_gpus. apply submit_all_ok, init_ok.
Defined.

(** X16: finished is final. Once [done] reports a key as finished with some
    progress, it reports the same after any further history, whatever
    messages arrive for the key again. *)
Theorem history_keeps_finished (s : Pool) (ops : list Op) (key : string) (p : Z) :
  pool_ok s →
  done s key = (Some true, p) →
  done (run_ops ops s) key = (Some true, p).
Proof.
  intros Hok Hdone.
  destruct (run_ops_spec ops s Hok) as (_ & (_ & _ & _ & _ & [k Hf] & _) & _).
  unfold done in *. rewrite Hf.
  destruct (List.find _ (finished_jobs s)) as [[[k' p'] c']|] eqn:Hfind.
  - by rewrite (find_app_Some _ _ _ _ Hfind).
  - by destruct (active_jobs s !! key) as [[? ?]|].
Qed.

Lemma history_keeps_finished_witness :
  done (run_ops sample_history one_finished) "job-1" = (Some true, 5%Z).
Proof.
  apply (history_keeps_finished one_finished sample_history "job-1" 5%Z).
  - unfold one_finished, one_submitted, two_gpus.
    apply finished_worker_ok, progress_worker_ok, submit_ok, init_ok.
  - by vm_compute.
Defined.

(** X17: a cancellation request is never dropped. If a key is in
    [cancelled_jobs], then after any further history a progress message for
    that key on a device with a context sets that device's flag. *)
Theorem history_keeps_cancel_request (s : Pool) (ops : list Op)
    (key dev : string) (value : Z) (ctx : WorkerContext) :
  pool_ok s →
  key ∈ cancelled_jobs s →
  context (run_ops ops s) !! dev = Some ctx →
  key ∈ cancelled_jobs (run_ops ops s)
  ∧ flag_value (snd (progress_worker (key, dev, value) (run_ops ops s)))
      (wc_cancel ctx) = true.
Proof.
  intros Hok Hkey Hctx.
  destruct (run_ops_spec ops s Hok) as (_ & (_ & _ & _ & _ & _ & [k Hc]) & _).
  assert (key ∈ cancelled_jobs (run_ops ops s)) as Hkey'.
  { rewrite Hc. apply elem_of_app. by left. }
  split; [done|].
  rewrite (progress_worker_requested _ key dev value ctx) by done.
  unfold flag_value. pool_simpl. by rewrite lookup_insert_eq.
Qed.

(** ** Starting workers *)

Lemma create_device_worker_step (s : Pool) (dev : DeviceParams) :
  ∃ ctx P Q nl,
    create_device_worker dev s
    = (Ok tt,
       set_pending (λ _, P)
         (set_queues (λ _, Q)
            (with_processes
               (<[device dev := Some {| pid := next_pid s; proc_context := ctx |}]>
                  (workers s))
               (<[device dev := ctx]> (context s))
               ({[next_pid s]} ∪ alive s)
               (<[wc_cancel ctx := false]> (flags s))
               nl (S (next_pid s)) s)))
    ∧ P !! device dev = Some (wc_pending ctx)
    ∧ (∀ n, n ≠ device dev → P !! n = pending s !! n)
    ∧ next_loc s ≤ wc_cancel ctx < nl
    ∧ (∀ x, x < next_loc s → Q !! x = queues s !! x)
    ∧ match pending s !! device dev with
      | Some q => wc_pending ctx = q
      | None => next_loc s ≤ wc_pending ctx < nl
                ∧ wc_pending ctx ≠ wc_cancel ctx
                ∧ Q !! wc_pending ctx = Some []
      end.
Proof.
  destruct (pending s !! device dev) as [q|] eqn:Hq.
  - exists {| wc_name := device dev; wc_device := dev;
              wc_cancel := next_loc s; wc_pending := q |},
           (pending s), (queues s), (S (next_loc s)).
    split_and!; [|by cbn|done|cbn; lia|cbn; lia|done|done].
    by rewrite (create_device_worker_known s dev q Hq).
  - exists {| wc_name := device dev; wc_device := dev;
              wc_cancel := S (next_loc s); wc_pending := next_loc s |},
           (<[device dev := next_loc s]> (pending s)),
           (<[next_loc s := []]> (queues s)), (S (S (next_loc s))).
    split_and!; cbn [wc_cancel wc_pending]; try lia.
    + unfold create_device_worker, bind, gets. by rewrite Hq.
    + by rewrite lookup_insert_eq.
    + intros n Hn. by rewrite lookup_insert_ne.
    + intros x Hx. rewrite lookup_insert_ne; [done|lia].
    + by rewrite lookup_insert_eq.
Qed.

(** A run of [create_device_worker] over a list of devices, as [__init__]
    and [recycle] make it. *)
Lemma spawn_loop (l : list DeviceParams) (s : Pool) :
  ∃ P Q W C A F nl np,
    for_each l create_device_worker s
    = (Ok tt,
       set_pending (λ _, P) (set_queues (λ _, Q) (with_processes W C A F nl np s)))
    ∧ next_loc s ≤ nl ∧ next_pid s ≤ np
    ∧ (∀ x, x < next_loc s → Q !! x = queues s !! x ∧ F !! x = flags s !! x)
    ∧ alive s ⊆ A
    ∧ (∀ x, x ∈ A → x ∈ alive s ∨ next_pid s ≤ x < np)
    ∧ (∀ n, n ∉ device <$> l →
         P !! n = pending s !! n ∧ C !! n = context s !! n
         ∧ W !! n = workers s !! n)
    ∧ (∀ n, n ∈ device <$> l →
         ∃ p, W !! n = Some (Some p)
              ∧ next_pid s ≤ pid p < np ∧ pid p ∈ A
              ∧ C !! n = Some (proc_context p)
              ∧ P !! n = Some (wc_pending (proc_context p))
              ∧ next_loc s ≤ wc_cancel (proc_context p) < nl
              ∧ F !! wc_cancel (proc_context p) = Some false
              ∧ match pending s !! n with
                | Some q => wc_pending (proc_context p) = q
                | None => next_loc s ≤ wc_pending (proc_context p) < nl
                          ∧ Q !! wc_pending (proc_context p) = Some []
                end).
Proof.
  revert s. induction l as [|d l IH]; intros s.
  - exists (pending s), (queues s), (workers s), (context s), (alive s), (flags s),
      (next_loc s), (next_pid s).
    split_and!; [by destruct s|done|done|done|done|by left|done|].
    intros n Hn. by apply not_elem_of_nil in Hn.
  - destruct (create_device_worker_step s d)
      as (ctx & P1 & Q1 & nl1 & Hstep & HP1 & HP1' & Hc & HQ1 & Hfresh).
    match type of Hstep with _ = (_, ?s1') => set (s1 := s1') in * end.
    destruct (IH s1) as (P & Q & W & C & A & F & nl & np
                         & Hloop & Hnl & Hnp & Hstore & Hsub & Halive & Hout & Hin).
    exists P, Q, W, C, A, F, nl, np.
    change (next_loc s1) with nl1 in *.
    change (next_pid s1) with (S (next_pid s)) in *.
    change (queues s1) with Q1 in *.
    change (pending s1) with P1 in *.
    change (alive s1) with ({[next_pid s]} ∪ alive s) in *.
    change (flags s1) with (<[wc_cancel ctx := false]> (flags s)) in *.
    change (context s1) with (<[device d := ctx]> (context s)) in *.
    change (workers s1)
      with (<[device d := Some {| pid := next_pid s; proc_context := ctx |}]>
              (workers s)) in *.
    split_and!.
    + cbn [for_each]. unfold bind at 1. by rewrite Hstep, Hloop.
    + lia.
    + lia.
    + intros x Hx. destruct (Hstore x) as [-> ->]; [lia|].
      split; [by apply HQ1|]. rewrite lookup_insert_ne; [done|lia].
    + etrans; [apply union_subseteq_r|exact Hsub].
    + intros x Hx. destruct (Halive x Hx) as [Hx'|Hx']; [|right; lia].
      apply elem_of_union in Hx' as [->%elem_of_singleton|Hx']; [right; lia|by left].
    + intros n Hn. rewrite fmap_cons, not_elem_of_cons in Hn. destruct Hn as [Hne Hn].
      destruct (Hout n Hn) as (-> & -> & ->).
      by rewrite HP1', !lookup_insert_ne.
    + intros n Hn. destruct (decide (n ∈ device <$> l)) as [Hl|Hl].
      * destruct (Hin n Hl) as (p & HW & Hpid & HpA & HC & HP & Hcl & HF & Hpend).
        exists p. split_and!; try done; try lia.
        destruct (decide (n = device d)) as [->|Hne].
        -- rewrite HP1 in Hpend. destruct (pending s !! device d) as [q|].
           ++ congruence.
           ++ destruct Hfresh as (Hq1 & Hq2 & Hq3). rewrite Hpend.
              split; [lia|]. destruct (Hstore (wc_pending ctx)) as [-> _]; [lia|done].
        -- rewrite HP1' in Hpend by done. destruct (pending s !! n) as [q|]; [done|].
           split; [lia|tauto].
      * rewrite fmap_cons, elem_of_cons in Hn. destruct Hn as [->|Hn]; [|done].
        destruct (Hout _ Hl) as (HP & HC & HW).
        rewrite HP1 in HP. rewrite lookup_insert_eq in HC. rewrite lookup_insert_eq in HW.
        exists {| pid := next_pid s; proc_context := ctx |}.
        cbn [pid proc_context].
        split_and!; [exact HW|lia|lia| |exact HC|exact HP|lia|lia| |].
        -- by apply Hsub, elem_of_union_l, elem_of_singleton.
        -- destruct (Hstore (wc_cancel ctx)) as [_ ->]; [lia|].
           by rewrite lookup_insert_eq.
        -- destruct (pending s !! device d) as [q|]; [done|].
           destruct Hfresh as (Hq1 & Hq2 & Hq3). split; [lia|].
           destruct (Hstore (wc_pending ctx)) as [-> _]; [lia|done].
Qed.

Lemma history_keeps_cancel_request_witness :
  ∃ ctx,
    context (run_ops sample_history cancel_requested) !! "gpu1" = Some ctx
    ∧ "job-1" ∈ cancelled_jobs (run_ops sample_history cancel_requested)
    ∧ flag_value
        (snd (progress_worker ("job-1", "gpu1", 3%Z)
                (run_ops sample_history cancel_requested)))
        (wc_cancel ctx) = true.
Proof.
  eexists. split; [by vm_compute|].
  apply (history_keeps_cancel_request cancel_requested sample_history
           "job-1" "gpu1" 3%Z).
  - unfold cancel_requested, one_submitted, two_gpus.
    apply cancel_ok, submit_ok, init_ok.
  - apply (bool_decide_unpack _). by vm_compute.
  - by vm_compute.
Defined.

Lemma init_state (devs : list DeviceParams) (max_jobs : Z) :
  ∃ P Q W C A F nl np,
    init devs max_jobs
    = set_pending (λ _, P)
        (set_queues (λ _, Q)
           (with_processes W C A F nl np (empty_pool devs max_jobs)))
    ∧ ∀ d, d ∈ devs →
        ∃ p, W !! device d = Some (Some p)
             ∧ pid p ∈ A
             ∧ C !! device d = Some (proc_context p)
             ∧ P !! device d = Some (wc_pending (proc_context p))
             ∧ F !! wc_cancel (proc_context p) = Some false
             ∧ Q !! wc_pending (proc_context p) = Some [].
Proof.
  destruct (spawn_loop devs (empty_pool devs max_jobs))
    as (P & Q & W & C & A & F & nl & np & Hloop & _ & _ & _ & _ & _ & _ & Hin).
  exists P, Q, W, C, A, F, nl, np. split.
  - change (init devs max_jobs)
      with (snd (for_each devs create_device_worker (empty_pool devs max_jobs))).
    by rewrite Hloop.
  - intros d Hd.
    destruct (Hin (device d)) as (p & HW & _ & HA & HC & HP & _ & HF & Hfresh).
    { by apply list_elem_of_fmap_2. }
    exists p. split_and!; try done.
    cbn in Hfresh. rewrite lookup_empty in Hfresh. tauto.
Qed.

(** X18: with a threshold that is not negative, the job counter of a pool
    built by [__init__] stays between zero and [max_jobs_per_worker] over
    any history. *)
Theorem history_counter_bounded (devs : list DeviceParams) (max_jobs : Z)
    (ops : list Op) :
  (0 ≤ max_jobs)%Z →
  (0 ≤ total_jobs (run_ops ops (init devs max_jobs)) ≤ max_jobs)%Z.
Proof.
  intros Hmax.
  destruct (run_ops_spec ops (init devs max_jobs) (init_ok devs max_jobs))
    as (_ & (_ & Hm & _) & Hcount).
  assert (max_jobs_per_worker (init devs max_jobs) = max_jobs
          ∧ total_jobs (init devs max_jobs) = 0%Z) as [Hm0 Ht0].
  { by destruct (init_state devs max_jobs) as (P & Q & W & C & A & F & nl & np & -> & _). }
  unfold counter_ok in Hcount. rewrite Hm, Hm0, Ht0 in Hcount. apply Hcount. lia.
Qed.

Lemma history_counter_bounded_witness :
  (0 ≤ total_jobs (run_ops sample_history (init [gpu0; gpu1] 2)) ≤ 2)%Z.
Proof. apply (history_counter_bounded [gpu0; gpu1] 2 sample_history). lia. Defined.

(** X19: the pool that [__init__] returns. It has the given devices and
    threshold, a counter of zero and no job known to it; each device has an
    empty queue, a running worker whose context is bound to that queue, and
    a clear cancel flag; [done] knows no key and [status] is empty. *)
Theorem init_fresh (devs : list DeviceParams) (max_jobs : Z) :
  devices (init devs max_jobs) = devs
  ∧ max_jobs_per_worker (init devs max_jobs) = max_jobs
  ∧ total_jobs (init devs max_jobs) = 0%Z
  ∧ cancelled_jobs (init devs max_jobs) = []
  ∧ (∀ d, d ∈ devs →
       queue_depth (init devs max_jobs) d = 0
       ∧ ∃ p, workers (init devs max_jobs) !! device d = Some (Some p)
              ∧ is_alive (init devs max_jobs) p = true
              ∧ context (init devs max_jobs) !! device d = Some (proc_context p)
              ∧ pending (init devs max_jobs) !! device d
                = Some (wc_pending (proc_context p))
              ∧ flag_value (init devs max_jobs) (wc_cancel (proc_context p)) = false)
  ∧ (∀ key, done (init devs max_jobs) key = (None, 0%Z))
  ∧ fst (status (init devs max_jobs)) = Ok [].
Proof.
  destruct (init_state devs max_jobs) as (P & Q & W & C & A & F & nl & np & -> & Hdev).
  split_and!; try done.
  intros d Hd. destruct (Hdev d Hd) as (p & HW & HA & HC & HP & HF & HQ).
  split.
  - unfold queue_depth. store_simpl. rewrite HP. cbn [from_option].
    unfold qsize, queue_items. store_simpl. by rewrite HQ.
  - exists p. unfold is_alive, flag_value. store_simpl.
    split_and!; try done; [by apply bool_decide_eq_true|by rewrite HF].
Qed.

(** ** More on [recycle] *)

Lemma recycle_run (s : Pool) :
  map_Forall (λ _ w, is_Some w) (workers s) →
  ∃ P Q W C A F nl np,
    recycle s
    = (Ok tt,
       set_pending (λ _, P) (set_queues (λ _, Q) (with_processes W C A F nl np s)))
    ∧ (∀ x, x < next_loc s → Q !! x = queues s !! x)
    ∧ (∀ n, n ∉ device <$> devices s →
         P !! n = pending s !! n
         ∧ (is_Some (W !! n) → is_Some (workers s !! n)))
    ∧ (∀ n, n ∈ device <$> devices s →
         ∃ p, W !! n = Some (Some p)
              ∧ pid p < np
              ∧ C !! n = Some (proc_context p)
              ∧ P !! n = Some (wc_pending (proc_context p))
              ∧ F !! wc_cancel (proc_context p) = Some false
              ∧ match pending s !! n with
                | Some q => wc_pending (proc_context p) = q
                | None => Q !! wc_pending (proc_context p) = Some []
                end).
Proof.
  intros Hw.
  unfold recycle. unfold bind at 1. unfold gets at 1. unfold bind at 1.
  destruct (recycle_stops_workers (map_to_list (workers s)) s)
    as (W1 & A1 & -> & _ & _ & HW1).
  { apply Forall_forall. intros [n w] Hin%elem_of_map_to_list. by apply (Hw n w). }
  unfold bind at 1. unfold gets at 1.
  set (s1 := with_processes W1 (context s) A1 (flags s) (next_loc s) (next_pid s) s).
  change (devices s1) with (devices s).
  destruct (spawn_loop (devices s) s1)
    as (P & Q & W & C & A & F & nl & np & -> & _ & _ & Hstore & _ & _ & Hout & Hin).
  exists P, Q, W, C, A, F, nl, np.
  change (next_loc s1) with (next_loc s) in *.
  change (queues s1) with (queues s) in *.
  change (pending s1) with (pending s) in *.
  change (workers s1) with W1 in *.
  split_and!; [done| | |].
  - intros x Hx. by apply Hstore.
  - intros n Hn. destruct (Hout n Hn) as (HP & _ & HW). split; [done|].
    rewrite HW. intros HWn. destruct (HW1 n HWn) as [|Hitem]; [done|].
    apply list_elem_of_fmap in Hitem as ([n' w'] & -> & Hitem).
    apply elem_of_map_to_list in Hitem. by eexists.
  - intros n Hn.
    destruct (Hin n Hn) as (p & HW & Hpid & _ & HC & HP & _ & HF & Hfresh).
    exists p. split_and!; try done; [lia|].
    destruct (pending s !! n); tauto.
Qed.

(** X20: [recycle] gives every device a new context whose cancel flag is
    clear, whatever the flag of the old context was; the cancellation
    requests and the active jobs are kept as they were. *)
Theorem recycle_clears_flags (s : Pool) (d : DeviceParams) :
  pool_ok s →
  d ∈ devices s →
  ∃ ctx,
    context (snd (recycle s)) !! device d = Some ctx
    ∧ flag_value (snd (recycle s)) (wc_cancel ctx) = false
    ∧ cancelled_jobs (snd (recycle s)) = cancelled_jobs s
    ∧ active_jobs (snd (recycle s)) = active_jobs s.
Proof.
  intros [_ Hw] Hd.
  destruct (recycle_run s) as (P & Q & W & C & A & F & nl & np & -> & _ & _ & Hin).
  { intros n w Hn. destruct (Hw n w Hn) as [(p & -> & _) _]. by eexists. }
  destruct (Hin (device d)) as (p & _ & _ & HC & _ & HF & _).
  { by apply list_elem_of_fmap_2. }
  exists (proc_context p). unfold flag_value. store_simpl.
  split_and!; try done. by rewrite HF.
Qed.

Lemma recycle_clears_flags_witness :
  flag_value cancelled_active 1 = true
  ∧ ∃ ctx,
      context (snd (recycle cancelled_active)) !! device gpu0 = Some ctx
      ∧ flag_value (snd (recycle cancelled_active)) (wc_cancel ctx) = false
      ∧ cancelled_jobs (snd (recycle cancelled_active)) = cancelled_jobs cancelled_active
      ∧ active_jobs (snd (recycle cancelled_active)) = active_jobs cancelled_active.
Proof.
  split; [by vm_compute|].
  apply (recycle_clears_flags cancelled_active gpu0).
  - unfold cancelled_active, two_active, two_gpus.
    apply cancel_ok, progress_worker_ok, progress_worker_ok, submit_all_ok, init_ok.
  - apply list_elem_of_here.
Defined.

(** ** [join] *)

Lemma join_stops_workers (items : list (string * option Process)) (s : Pool) :
  Forall (λ nw, is_Some nw.2) items →
  for_each items (λ '(name, proc),
    match proc with
    | None => raise AttributeError
    | Some p =>
        let! running := gets (λ s, is_alive s p) in
        if running then terminate p else ret tt
    end) s
  = (Ok tt, set_alive (λ _, alive s ∖ worker_pids items) s).
Proof.
  revert s. induction items as [|[n w] items IH]; intros s Hall.
  - cbn. unfold ret, worker_pids. cbn. f_equal.
    rewrite difference_empty_L. by destruct s.
  - apply Forall_cons in Hall as [[p Hw] Hall]. simpl in Hw. subst w.
    cbn [for_each]. unfold bind at 1. unfold bind at 1. unfold gets at 1.
    assert (worker_pids ((n, Some p) :: items) = {[pid p]} ∪ worker_pids items)
      as -> by done.
    unfold is_alive. case_bool_decide as Hrun.
    + unfold terminate, modify. rewrite IH by done. store_simpl.
      f_equal. unfold set_alive. store_simpl. f_equal.
      apply difference_difference_l_L.
    + unfold ret at 1. rewrite IH by done.
      f_equal. unfold set_alive. f_equal.
      rewrite <- difference_difference_l_L. f_equal. symmetry.
      by apply difference_disjoint_L, disjoint_singleton_r.
Qed.

Lemma join_run (ch : Channels) (s : Pool) :
  map_Forall (λ _ w, is_Some w) (workers s) →
  join ch s
  = (Ok {| logs_closed := true; finished_closed := true; progress_closed := true;
           closed_queues
           := closed_queues ch ∪ list_to_set (map_to_list (pending s)).*2 |},
     set_pending (λ _, ∅)
       (set_alive (λ _, alive s ∖ worker_pids (map_to_list (workers s))) s)).
Proof.
  intros Hw. unfold join. unfold bind at 1. unfold gets at 1. unfold bind at 1.
  rewrite join_stops_workers; [done|].
  apply Forall_forall. intros [n w] Hin%elem_of_map_to_list. by apply (Hw n w).
Qed.

Lemma pool_ok_workers (s : Pool) :
  pool_ok s → map_Forall (λ _ w, is_Some w) (workers s).
Proof.
  intros [_ Hw] n w Hn. destruct (Hw n w Hn) as [(p & -> & _) _]. by eexists.
Qed.

Lemma worker_pids_elem (s : Pool) (n : string) (p : Process) :
  workers s !! n = Some (Some p) → pid p ∈ worker_pids (map_to_list (workers s)).
Proof.
  intros Hn. unfold worker_pids. apply elem_of_list_to_set, list_elem_of_omap.
  exists (n, Some p). split; [by apply elem_of_map_to_list|done].
Qed.

(** X21: [join] on a well-formed pool returns normally, with the three
    channels and every pending queue closed; afterwards no process of
    [self.workers] is running, [self.pending] is empty, and the worker
    entries and the job records are as they were. *)
Theorem join_shuts_down (ch : Channels) (s : Pool) :
  pool_ok s →
  ∃ ch' s',
    join ch s = (Ok ch', s')
    ∧ logs_closed ch' = true ∧ finished_closed ch' = true
    ∧ progress_closed ch' = true
    ∧ (∀ n q, pending s !! n = Some q → q ∈ closed_queues ch')
    ∧ (∀ n p, workers s' !! n = Some (Some p) → is_alive s' p = false)
    ∧ pending s' = ∅
    ∧ workers s' = workers s
    ∧ active_jobs s' = active_jobs s ∧ finished_jobs s' = finished_jobs s
    ∧ queues s' = queues s.
Proof.
  intros Hok. rewrite (join_run ch s (pool_ok_workers s Hok)).
  eexists _, _. split; [done|]. store_simpl. cbn [logs_closed finished_closed
    progress_closed closed_queues]. split_and!; try done.
  - intros n q Hn. apply elem_of_union_r, elem_of_list_to_set, list_elem_of_fmap.
    exists (n, q). split; [done|]. by apply elem_of_map_to_list.
  - intros n p Hn. unfold is_alive. store_simpl. apply bool_decide_eq_false.
    apply not_elem_of_difference. right. by eapply worker_pids_elem.
Qed.

Lemma join_shuts_down_witness :
  ∃ ch' s',
    join open_channels three_submitted = (Ok ch', s')
    ∧ logs_closed ch' = true ∧ finished_closed ch' = true
    ∧ progress_closed ch' = true
    ∧ (∀ n q, pending three_submitted !! n = Some q → q ∈ closed_queues ch')
    ∧ (∀ n p, workers s' !! n = Some (Some p) → is_alive s' p = false)
    ∧ pending s' = ∅
    ∧ workers s' = workers three_submitted
    ∧ active_jobs s' = active_jobs three_submitted
    ∧ finished_jobs s' = finished_jobs three_submitted
    ∧ queues s' = queues three_submitted.
Proof.
  apply (join_shuts_down open_channels three_submitted).
  unfold three_submitted, two_gpus. apply submit_all_ok, init_ok.
Defined.

(** X22: [join] can be called again: the second call returns normally and
    changes neither the pool nor the set of closed channels. *)
Theorem join_twice (ch : Channels) (s : Pool) :
  pool_ok s →
  ∃ ch' s',
    join ch s = (Ok ch', s') ∧ join ch' s' = (Ok ch', s').
Proof.
  intros Hok. pose proof (pool_ok_workers s Hok) as Hw.
  rewrite (join_run ch s Hw). eexists _, _. split; [done|].
  rewrite join_run by exact Hw. store_simpl. cbn [closed_queues].
  rewrite map_to_list_empty. cbn [fmap list_fmap list_to_set].
  rewrite union_empty_r_L. f_equal.
  unfold set_pending, set_alive. store_simpl. f_equal.
  by rewrite difference_difference_l_L, union_idemp_L.
Qed.

Lemma join_twice_witness :
  ∃ ch' s',
    join open_channels three_submitted = (Ok ch', s')
    ∧ join ch' s' = (Ok ch', s').
Proof.
  apply (join_twice open_channels three_submitted).
  unfold three_submitted, two_gpus. apply submit_all_ok, init_ok.
Defined.

Lemma submit_below_run (key : string) (fn : Callable)
    (needs_device : option DeviceParams) (s : Pool) :
  (total_jobs s + 1 ≤ max_jobs_per_worker s)%Z →
  submit key fn needs_device s
  = assign_job key fn needs_device (set_total_jobs (λ n, n + 1)%Z s).
Proof.
  intros Hle. rewrite submit_assign. unfold bind at 1. unfold modify at 1.
  unfold bind at 1. unfold gets at 1. pool_simpl.
  assert ((max_jobs_per_worker s <? total_jobs s + 1)%Z = false) as ->
    by by apply Z.ltb_ge.
  unfold bind at 1. by unfold ret at 1.
Qed.

Lemma assign_job_no_queues (key : string) (fn : Callable)
    (needs_device : option DeviceParams) (s : Pool) :
  devices s ≠ [] →
  pending s = ∅ →
  assign_job key fn needs_device s = (Raise KeyError, s).
Proof.
  intros Hdevs Hpend.
  assert (get_next_device None s = (Raise KeyError, s)) as Hnone.
  { destruct (devices s) as [|d l] eqn:Hd; [done|].
    apply (get_next_device_missing_queue s d).
    - rewrite Hd. apply list_elem_of_here.
    - by rewrite Hpend, lookup_empty. }
  unfold assign_job. unfold bind at 1.
  destruct needs_device as [nd|]; [|by rewrite Hnone].
  unfold get_next_device in *.
  destruct (list_find (λ d, device d = device nd) (devices s)) as [[i d]|] eqn:Hfind;
    cbn [fmap option_fmap option_map fst] in *; [|by rewrite Hnone].
  apply list_find_Some in Hfind as (Hi & _).
  unfold bind, list_getitem, getitem. by rewrite Hi, Hpend, lookup_empty.
Qed.

(** X23: after [join], a [submit] that does not recycle raises [KeyError],
    pinned or not: the pending queues are gone. The job counter has moved
    on all the same. *)
Theorem submit_after_join (ch : Channels) (key : string) (fn : Callable)
    (needs_device : option DeviceParams) (s : Pool) :
  pool_ok s →
  devices s ≠ [] →
  (total_jobs s + 1 ≤ max_jobs_per_worker s)%Z →
  fst (submit key fn needs_device (snd (join ch s))) = Raise KeyError
  ∧ total_jobs (snd (submit key fn needs_device (snd (join ch s))))
    = (total_jobs s + 1)%Z.
Proof.
  intros Hok Hdevs Hle. rewrite (join_run ch s (pool_ok_workers s Hok)).
  cbn [snd]. rewrite submit_below_run by done.
  by rewrite assign_job_no_queues.
Qed.

Lemma submit_after_join_witness :
  fst (submit "d" (callable 3) (Some gpu0) (snd (join open_channels three_submitted)))
  = Raise KeyError
  ∧ total_jobs
      (snd (submit "d" (callable 3) (Some gpu0)
              (snd (join open_channels three_submitted))))
    = (total_jobs three_submitted + 1)%Z.
Proof.
  apply (submit_after_join open_channels "d" (callable 3) (Some gpu0) three_submitted).
  - unfold three_submitted, two_gpus. apply submit_all_ok, init_ok.
  - vm_compute. discriminate.
  - by vm_compute.
Defined.

(** X24: [recycle] after [join] brings the pool back: it returns normally
    and leaves a well-formed pool in which every device has a queue again,
    a new and empty one. The jobs that were queued at the time of [join]
    are not on it. *)
Theorem recycle_after_join (ch : Channels) (s : Pool) :
  pool_ok s →
  ∃ s2,
    recycle (snd (join ch s)) = (Ok tt, s2)
    ∧ pool_ok s2
    ∧ ∀ d, d ∈ devices s → queue_depth s2 d = 0.
Proof.
  intros Hok. pose proof (pool_ok_workers s Hok) as Hw. pose proof Hok as [_ Hnames].
  rewrite (join_run ch s Hw). cbn [snd].
  match goal with |- context [recycle ?s1'] => set (s1 := s1') end.
  destruct (recycle_run s1 Hw) as (P & Q & W & C & A & F & nl & np & -> & _ & Hout & Hin).
  change (devices s1) with (devices s) in *.
  change (workers s1) with (workers s) in *.
  change (pending s1) with (∅ : gmap string loc) in *.
  eexists. split; [done|]. split.
  - split; store_simpl.
    + apply Forall_forall. intros d Hd.
      destruct (Hin (device d)) as (p & _ & _ & _ & HP & _); [by apply list_elem_of_fmap_2|].
      by eexists.
    + intros n w HWn. destruct (decide (n ∈ device <$> devices s)) as [Hn|Hn].
      * split; [|done]. destruct (Hin n Hn) as (p & HW & Hpid & _).
        exists p. split; [congruence|done].
      * exfalso. destruct (Hout n Hn) as [_ Hold].
        destruct Hold as [w' Hw']; [by eexists|].
        by destruct (Hnames n w' Hw') as [_ ?].
  - intros d Hd.
    destruct (Hin (device d)) as (p & _ & _ & _ & HP & _ & HQ);
      [by apply list_elem_of_fmap_2|].
    rewrite lookup_empty in HQ.
    unfold queue_depth. store_simpl. rewrite HP. cbn [from_option].
    unfold qsize, queue_items. store_simpl. by rewrite HQ.
Qed.

Lemma recycle_after_join_witness :
  queue_depth three_submitted gpu0 = 2
  ∧ ∃ s2,
      recycle (snd (join open_channels three_submitted)) = (Ok tt, s2)
      ∧ pool_ok s2
      ∧ ∀ d, d ∈ devices three_submitted → queue_depth s2 d = 0.
Proof.
  split; [by vm_compute|].
  apply (recycle_after_join open_channels three_submitted).
  unfold three_submitted, two_gpus. apply submit_all_ok, init_ok.
Defined.
